(** * h-baselines: the TRPO-family driver and the SAC feed-forward policy

    A shallow embedding of [hbaselines/trpo/algorithm.py] (sampler,
    advantage estimator, logging) and of [hbaselines/fcnet/sac.py]
    (squashed-Gaussian actor, twin critics, losses, update step), with the
    properties of the design document stated over it.

    Numbers: Python floats and TensorFlow float32 tensors are read as real
    numbers ([R]); rounding is not modelled.  Python lists and numpy arrays
    are lists; [append] adds at the end. *)

From Stdlib Require Import Reals Lra Lia ZArith.
From stdpp Require Import base list strings pretty.

#[local] Open Scope R_scope.

(** ** Python outcomes *)

Inductive exn : Type :=
| IndexError
| ValueError
| ZeroDivisionError.

(** A call either returns, raises, or is cut off by the fuel of a [while]. *)
Inductive outcome (A : Type) : Type :=
| Ok (a : A)
| Raised (e : exn)
| OutOfFuel.

Arguments Ok {A} a.
Arguments Raised {A} e.
Arguments OutOfFuel {A}.

#[global] Instance outcome_ret : MRet outcome := fun A a => Ok a.

#[global] Instance outcome_bind : MBind outcome := fun A B k m =>
  match m with
  | Ok a => k a
  | Raised e => Raised e
  | OutOfFuel => OutOfFuel
  end.

(** [a[i]] on a list or a numpy array. *)
Definition getitem {A : Type} (a : list A) (i : nat) : outcome A :=
  match a !! i with
  | Some x => Ok x
  | None => Raised IndexError
  end.

(** A [for] loop whose body may raise. *)
Fixpoint for_each {A S : Type} (body : S -> A -> outcome S) (xs : list A) (s : S)
  : outcome S :=
  match xs with
  | [] => Ok s
  | x :: xs' => s' ← body s x; for_each body xs' s'
  end.

(** A numpy bool used as a number. *)
Definition b2r (b : bool) : R := if b then 1 else 0.

Definition Rsum (l : list R) : R := foldr Rplus 0 l.

(** A numpy float result: a number or [nan]. *)
Inductive npfloat : Type :=
| Finite (x : R)
| NaN.

(** [np.mean] and [np.std] of an empty array are [nan] (numpy warns, it does
    not raise). *)
Definition np_mean (a : list R) : npfloat :=
  match a with
  | [] => NaN
  | _ => Finite (Rsum a / INR (length a))
  end.

Definition np_std (a : list R) : npfloat :=
  match a with
  | [] => NaN
  | _ =>
      let m := Rsum a / INR (length a) in
      Finite (sqrt (Rsum ((fun x => (x - m) * (x - m)) <$> a) / INR (length a)))
  end.

(** The builtins [max(a, default=d)] and [min(a, default=d)]. *)
Definition py_max (a : list R) (default : R) : R :=
  match a with
  | [] => default
  | x :: a' => foldl Rmax x a'
  end.

Definition py_min (a : list R) (default : R) : R :=
  match a with
  | [] => default
  | x :: a' => foldl Rmin x a'
  end.

(** [collections.deque(maxlen=m).extend(xs)]: the oldest entries fall out. *)
Definition deque_extend {A : Type} (maxlen : nat) (buf xs : list A) : list A :=
  drop (length (buf ++ xs) - maxlen) (buf ++ xs).

(** ** hbaselines/trpo/algorithm.py *)

Module TRPO.

(** [gym.spaces]: only [Box] carries bounds. *)
Inductive space : Type :=
| Box (low high : list R)
| Discrete (n : nat).

(** The environment collaborator.  The Python object is mutable: [reset] and
    [step] take the state before the call and give the state after it.
    [info] is dropped, it is never read. *)
Class Environment (E Obs : Type) : Type := {
  reset : E -> E * Obs;
  step : E -> list R -> E * (Obs * R * bool);
  action_space : space
}.

Arguments action_space E {Obs _}.

(** The policy collaborator [policy_pi].  [compute_action] is called on a
    batch of one observation and its row [0] is used: the model works on
    that row.  Sampling an action may change the policy's state (its random
    source); [value] only reads. *)
Class PolicyModel (P Obs : Type) : Type := {
  compute_action : P -> Obs -> P * list R;
  value : P -> Obs -> R
}.

(** [np.clip(a, a_min, a_max)] is [minimum(a_max, maximum(a, a_min))],
    elementwise.  Operands of different lengths are a shape error (numpy
    raises unless it can broadcast; broadcasting is not modelled). *)
Definition clip1 (a lo hi : R) : R := Rmin hi (Rmax a lo).

Fixpoint np_clip (a a_min a_max : list R) : outcome (list R) :=
  match a, a_min, a_max with
  | [], [], [] => Ok []
  | x :: a', lo :: lo', hi :: hi' =>
      r ← np_clip a' lo' hi'; Ok (clip1 x lo hi :: r)
  | _, _, _ => Raised ValueError
  end.

(** The dict returned by [_collect_samples]. *)
Record segment (Obs : Type) : Type := mk_segment {
  observations : list Obs;
  next_observations : list Obs;
  rewards : list R;
  dones : list bool;
  actions : list (list R);
  ep_rets : list R;
  ep_lens : list nat;
  total_timestep : nat
}.

Arguments mk_segment {Obs}.
Arguments observations {Obs}.
Arguments next_observations {Obs}.
Arguments rewards {Obs}.
Arguments dones {Obs}.
Arguments actions {Obs}.
Arguments ep_rets {Obs}.
Arguments ep_lens {Obs}.
Arguments total_timestep {Obs}.

(** The keys [_add_vtarg_and_adv] adds to the dict. *)
Record estimates : Type := mk_estimates {
  adv : list R;
  vpred : list R;
  tdlamret : list R
}.

Section Sampler.
Context {E P Obs : Type} `{!Environment E Obs} `{!PolicyModel P Obs}.

(** The objects and local variables live during the [while] loop of
    [_collect_samples]. *)
Record locals : Type := mk_locals {
  l_env : E;
  l_policy_pi : P;
  l_obs : Obs;
  l_observations : list Obs;
  l_next_observations : list Obs;
  l_rewards : list R;
  l_dones : list bool;
  l_actions : list (list R);
  cur_ep_ret : R;
  current_ep_len : nat;
  l_ep_rets : list R;
  l_ep_lens : list nat
}.

(** One pass through the body of the loop. *)
Definition collect_body (st : locals) : outcome locals :=
  let '(pi, action) := compute_action (l_policy_pi st) (l_obs st) in
  clipped_action ←
    match action_space E with
    | Box low high => np_clip action low high
    | _ => Ok action
    end;
  let '(env, (next_obs, reward, done)) := step (l_env st) clipped_action in
  let observations := l_observations st ++ [l_obs st] in
  let next_observations := l_next_observations st ++ [next_obs] in
  let actions := l_actions st ++ [action] in
  let rewards := l_rewards st ++ [reward] in
  let dones := l_dones st ++ [done] in
  let cur_ep_ret := cur_ep_ret st + reward in
  let current_ep_len := (current_ep_len st + 1)%nat in
  if done then
    let '(env, obs) := reset env in
    Ok (mk_locals env pi obs observations next_observations rewards dones
          actions 0 0 (l_ep_rets st ++ [cur_ep_ret])
          (l_ep_lens st ++ [current_ep_len]))
  else
    Ok (mk_locals env pi next_obs observations next_observations rewards
          dones actions cur_ep_ret current_ep_len (l_ep_rets st)
          (l_ep_lens st)).

(** [while len(observations) < n_samples: ...]; [fuel] bounds the number of
    passes. *)
Fixpoint collect_loop (fuel : nat) (n_samples : Z) (st : locals)
  : outcome locals :=
  if (Z.of_nat (length (l_observations st)) <? n_samples)%Z then
    match fuel with
    | O => OutOfFuel
    | S fuel' => st' ← collect_body st; collect_loop fuel' n_samples st'
    end
  else Ok st.

(** Returns the dict together with the environment and the policy as the
    call leaves them. *)
Definition _collect_samples (fuel : nat) (n_samples : Z) (env : E) (pi : P)
  : outcome (segment Obs * E * P) :=
  let '(env, obs) := reset env in
  st ← collect_loop fuel n_samples
         (mk_locals env pi obs [] [] [] [] [] 0 0 [] []);
  Ok (mk_segment (l_observations st) (l_next_observations st)
        (l_rewards st) (l_dones st) (l_actions st) (l_ep_rets st)
        (l_ep_lens st) (length (l_observations st)),
      l_env st, l_policy_pi st).

End Sampler.

Section AdvantageEstimator.
Context {P Obs : Type} `{!PolicyModel P Obs}.

(** [np.empty(n, 'float32')]: [n] slots of whatever was in memory. *)
Variable uninit : nat -> R.

Definition np_empty (n : nat) : list R := uninit <$> seq 0 n.

(** The loop state: [seg["adv"]], [seg["vpred"]] and [lastgaelam]. *)
Definition gae_state : Type := list R * list R * R.

Definition gae_body (pi : P) (seg : segment Obs) (gamma lam : R)
    (ignore_dones : bool) (st : gae_state) (step : nat) : outcome gae_state :=
  let '(adv, vpreds, lastgaelam) := st in
  o ← getitem (observations seg) step;
  o' ← getitem (next_observations seg) step;
  let vpred := value pi o in
  let next_vpred := value pi o' in
  let vpreds := <[step := vpred]> vpreds in
  d ← getitem (dones seg) step;
  let notdone := if ignore_dones then 1 else 1 - b2r d in
  r ← getitem (rewards seg) step;
  let delta := r + gamma * notdone * next_vpred - vpred in
  let lastgaelam := delta + gamma * lam * (1 - b2r d) * lastgaelam in
  Ok (<[step := lastgaelam]> adv, vpreds, lastgaelam).

Definition _add_vtarg_and_adv (pi : P) (seg : segment Obs) (gamma lam : R)
    (ignore_dones : bool) : outcome estimates :=
  let rew_len := length (rewards seg) in
  '(adv, vpreds, _) ←
    for_each (gae_body pi seg gamma lam ignore_dones)
             (rev (seq 0 rew_len)) (np_empty rew_len, np_empty rew_len, 0);
  Ok (mk_estimates adv vpreds (zip_with Rplus adv vpreds)).

End AdvantageEstimator.

Section Logging.

(** The attributes of [RLAlgorithm] that [_log_training] reads and
    writes. *)
Record algorithm : Type := mk_algorithm {
  len_buffer : list nat;
  reward_buffer : list R;
  episodes_so_far : nat;
  timesteps_so_far : nat;
  iters_so_far : nat;
  loss_names : list string
}.

(** The [stats] dict; the trainer's losses are the entries added by the
    [zip] loop. *)
Record stats : Type := mk_stats {
  episode_steps : npfloat;
  mean_return_history : npfloat;
  mean_return : npfloat;
  max_return : R;
  min_return : R;
  std_return : npfloat;
  episodes_this_itr : nat;
  episodes_total : nat;
  total_steps : nat;
  epoch : nat;
  duration : R;
  steps_per_second : R;
  explained_variance_stat : npfloat;
  losses : list (string * R)
}.

(** [stable_baselines.common.explained_variance], an outside library. *)
Variable explained_variance : list R -> list R -> npfloat.

(** Python's [/] on floats raises on a zero divisor. *)
Definition py_div (a b : R) : outcome R :=
  if Req_dec_T b 0 then Raised ZeroDivisionError else Ok (a / b).

(** [now1] and [now2] are the two readings of [time.time()].  Writing the
    row to the csv file and printing the table are left out. *)
Definition _log_training {Obs : Type} (self : algorithm) (t_start now1 now2 : R)
    (seg : segment Obs) (mean_losses vpredbefore tdlamret : list R)
  : outcome (algorithm * stats) :=
  let lens := ep_lens seg in
  let rews := ep_rets seg in
  let current_it_timesteps := total_timestep seg in
  let self :=
    mk_algorithm (deque_extend 40 (len_buffer self) lens)
                 (deque_extend 40 (reward_buffer self) rews)
                 (episodes_so_far self + length lens)
                 (timesteps_so_far self + current_it_timesteps)
                 (iters_so_far self + 1)
                 (loss_names self) in
  sps ← py_div (INR (timesteps_so_far self)) (now2 - t_start);
  Ok (self,
      mk_stats (np_mean (INR <$> lens))
               (np_mean (reward_buffer self))
               (np_mean rews)
               (py_max rews 0)
               (py_min rews 0)
               (np_std rews)
               (length lens)
               (episodes_so_far self)
               (timesteps_so_far self)
               (iters_so_far self)
               (now1 - t_start)
               sps
               (explained_variance vpredbefore tdlamret)
               (zip (loss_names self) mean_losses)).

End Logging.

(** *** [learn] *)

(** The trainer collaborator: [_train] of a subclass, with the attributes of
    the subclass as its state [A].  It may change the policy.  (In
    [RLAlgorithm] itself [_train] raises [NotImplementedError].)  The
    tensorboard writer is left out. *)
Class Trainer (A P Obs : Type) : Type := {
  _train :
    A -> P -> segment Obs -> estimates -> Z ->
    outcome (A * P * (list R * list R * list R))
}.

Section Learn.
Context {E P Obs A : Type}.
Context `{!Environment E Obs} `{!PolicyModel P Obs} `{!Trainer A P Obs}.

(** The object [self]: what [__init__] is given, the attributes of the
    subclass, and the attributes [_log_training] keeps. *)
Record RLAlgorithm : Type := mk_rl {
  env : E;
  policy_pi : P;
  subclass : A;
  timesteps_per_batch : Z;
  rl_gamma : R;
  rl_lam : R;
  verbose : Z;
  logged : algorithm
}.

(** [self] with what lies outside of it: the number of readings of the clock
    so far and the rows of [train.csv]. *)
Record world : Type := mk_world {
  w_self : RLAlgorithm;
  ticks : nat;
  train_csv : list stats
}.

(** [clock k] is what the [k]-th call of [time.time()] returns. *)
Variable clock : nat -> R.
Variable explained_variance : list R -> list R -> npfloat.
Variable uninit : nat -> R.

(** The two readings of the clock that [self.timed] makes when [verbose >= 1]
    only go to the console. *)
Definition timed_reading (w : world) : world :=
  if (1 <=? verbose (w_self w))%Z then
    mk_world (w_self w) (S (ticks w)) (train_csv w)
  else w.

(** One pass through the body of the loop of [learn]; gives the world after
    it and [seg["total_timestep"]].  [sample_fuel] is the fuel of the loop of
    [_collect_samples]. *)
Definition learn_pass (sample_fuel : nat) (total_timesteps : Z) (t_start : R)
    (w : world) : outcome (world * nat) :=
  let w := timed_reading w in
  let self := w_self w in
  '(seg, env', pi) ←
    _collect_samples sample_fuel (timesteps_per_batch self) (env self)
                     (policy_pi self);
  est ← _add_vtarg_and_adv uninit pi seg (rl_gamma self) (rl_lam self) false;
  let w := timed_reading w in
  '(sub, pi, (mean_losses, vpredbefore, tdlamret)) ←
    _train (subclass self) pi seg est total_timesteps;
  let now1 := clock (ticks w) in
  let now2 := clock (S (ticks w)) in
  '(lg, row) ←
    _log_training explained_variance (logged self) t_start now1 now2 seg
                  mean_losses vpredbefore tdlamret;
  Ok (mk_world
        (mk_rl env' pi sub (timesteps_per_batch self) (rl_gamma self)
               (rl_lam self) (verbose self) lg)
        (S (S (ticks w))) (train_csv w ++ [row]),
      total_timestep seg).

(** [while timesteps_so_far < total_timesteps: ...]; [fuel] bounds the number
    of passes. *)
Fixpoint learn_loop (fuel sample_fuel : nat) (total_timesteps : Z) (t_start : R)
    (w : world) (iters_so_far timesteps_so_far : Z) : outcome world :=
  if (timesteps_so_far <? total_timesteps)%Z then
    match fuel with
    | O => OutOfFuel
    | S fuel' =>
        '(w, n) ← learn_pass sample_fuel total_timesteps t_start w;
        learn_loop fuel' sample_fuel total_timesteps t_start w
                   (iters_so_far + 1) (timesteps_so_far + Z.of_nat n)
    end
  else Ok w.

(** Making the directories, the tensorboard writer and the seeding are left
    out. *)
Definition learn (fuel sample_fuel : nat) (w : world) (total_timesteps : Z)
  : outcome world :=
  let t_start := clock (ticks w) in
  let w := mk_world (w_self w) (S (ticks w)) (train_csv w) in
  learn_loop fuel sample_fuel total_timesteps t_start w 0 0.

End Learn.

End TRPO.

(** ** hbaselines/fcnet/sac.py *)

Module SAC.

(** *** Tensor elements

    The graph is built once and then evaluated; what an evaluation yields
    depends on what is asked of it (values, or values with derivatives).  The
    elements of a tensor are therefore kept abstract behind the operations the
    file uses. *)
Class TFNum (T : Type) : Type := {
  tf_const : R -> T;
  tf_add : T -> T -> T;
  tf_sub : T -> T -> T;
  tf_mul : T -> T -> T;
  tf_div : T -> T -> T;
  tf_neg : T -> T;
  tf_exp : T -> T;
  tf_log : T -> T;
  tf_tanh : T -> T;
  tf_abs : T -> T;
  tf_minimum : T -> T -> T;
  tf_maximum : T -> T -> T;
  stop_gradient : T -> T
}.

Declare Scope tf_scope.
Delimit Scope tf_scope with tf.
Infix "+" := tf_add : tf_scope.
Infix "-" := tf_sub : tf_scope.
Infix "*" := tf_mul : tf_scope.
Infix "/" := tf_div : tf_scope.
Notation "- x" := (tf_neg x) : tf_scope.

(** Values only: [tf.stop_gradient] is the identity. *)
#[global] Instance R_num : TFNum R := {
  tf_const x := x;
  tf_add := Rplus;
  tf_sub := Rminus;
  tf_mul := Rmult;
  tf_div := Rdiv;
  tf_neg := Ropp;
  tf_exp := exp;
  tf_log := ln;
  tf_tanh := tanh;
  tf_abs := Rabs;
  tf_minimum := Rmin;
  tf_maximum := Rmax;
  stop_gradient x := x
}.

(** A value with its derivative along one direction of the trainable
    variables.  Fed and constant values have derivative zero;
    [tf.stop_gradient] keeps the value and cuts the derivative.
    [tf.minimum] and [tf.maximum] pass the derivative of the operand they
    select. *)
Record dual : Type := mk_dual { val : R; tangent : R }.

#[global] Instance dual_num : TFNum dual := {
  tf_const x := mk_dual x 0;
  tf_add a b := mk_dual (val a + val b) (tangent a + tangent b);
  tf_sub a b := mk_dual (val a - val b) (tangent a - tangent b);
  tf_mul a b := mk_dual (val a * val b) (tangent a * val b + val a * tangent b);
  tf_div a b :=
    mk_dual (val a / val b)
            ((tangent a * val b - val a * tangent b) / (val b * val b));
  tf_neg a := mk_dual (- val a) (- tangent a);
  tf_exp a := mk_dual (exp (val a)) (exp (val a) * tangent a);
  tf_log a := mk_dual (ln (val a)) (tangent a / val a);
  tf_tanh a :=
    mk_dual (tanh (val a)) ((1 - tanh (val a) * tanh (val a)) * tangent a);
  tf_abs a :=
    mk_dual (Rabs (val a))
            (if Rlt_dec (val a) 0 then - tangent a
             else if Rlt_dec 0 (val a) then tangent a else 0);
  tf_minimum a b := if Rle_dec (val a) (val b) then a else b;
  tf_maximum a b := if Rle_dec (val b) (val a) then a else b;
  stop_gradient a := mk_dual (val a) 0
}.

(** *** Tensors of rank two

    A tensor of shape [[batch, k]] is the list of its rows.  Elementwise
    operations pair the entries of their operands; TensorFlow rejects
    operands whose shapes differ, here the longer one is cut. *)
Section Tensors.
Context {T : Type} `{!TFNum T}.

#[local] Open Scope tf_scope.

#[local] Abbreviation tensor := (list (list T)).

Definition placeholder (a : list (list R)) : tensor :=
  (fun row : list R => tf_const <$> row) <$> a.

Definition elementwise (f : T -> T) (x : tensor) : tensor :=
  (fun row : list T => f <$> row) <$> x.

Definition elementwise2 (f : T -> T -> T) (x y : tensor) : tensor :=
  zip_with (zip_with f) x y.

(** A vector of shape [[k]] against every row of a [[batch, k]] tensor. *)
Definition broadcast_rows (f : T -> T -> T) (x : tensor) (v : list T) : tensor :=
  (fun row : list T => zip_with f row v) <$> x.

Definition tf_square (x : T) : T := x * x.

Definition sum_list (l : list T) : T := foldr tf_add (tf_const 0) l.

(** [tf.reduce_sum(x, axis=1)] *)
Definition reduce_sum_axis1 (x : tensor) : list T := sum_list <$> x.

(** [tf.expand_dims(v, axis=-1)] *)
Definition expand_dims (v : list T) : tensor := (fun a => [a]) <$> v.

(** [tf.reduce_mean(x)] over all entries.  Of an empty tensor TensorFlow
    gives [nan]; here it is the quotient by zero. *)
Definition reduce_mean (x : tensor) : T :=
  sum_list (concat x) / tf_const (INR (length (concat x))).

(** [tf.split(x, 2, axis=-1)] *)
Definition tf_split2 (x : tensor) : tensor * tensor :=
  ((fun row : list T => take (length row / 2) row) <$> x,
   (fun row : list T => drop (length row / 2) row) <$> x).

(** [tf.concat([x, y], axis=-1)] *)
Definition tf_concat (x y : tensor) : tensor := zip_with app x y.

(** [tf.clip_by_value(x, lo, hi)] is [maximum(minimum(x, hi), lo)]. *)
Definition clip_by_value (x : tensor) (lo hi : R) : tensor :=
  elementwise (fun a => tf_maximum (tf_minimum a (tf_const hi)) (tf_const lo)) x.

(** The mean the [tf.compat.v1.losses] functions take (unit weights): the
    sum over the number of entries, and zero when there is none. *)
Definition safe_mean (x : tensor) : T :=
  match concat x with
  | [] => tf_const 0
  | l => sum_list l / tf_const (INR (length l))
  end.

(** [tf.compat.v1.losses.mean_squared_error(labels, predictions)] *)
Definition mean_squared_error (labels predictions : tensor) : T :=
  safe_mean (elementwise2 (fun p l => tf_square (p - l)) predictions labels).

(** [tf.compat.v1.losses.huber_loss(labels, predictions)], [delta = 1.0]. *)
Definition huber_loss (labels predictions : tensor) : T :=
  let delta := tf_const 1 in
  safe_mean
    (elementwise2
       (fun p l =>
          let error := p - l in
          let abs_error := tf_abs error in
          let quadratic := tf_minimum abs_error delta in
          let linear := abs_error - quadratic in
          tf_const (1 / 2) * (quadratic * quadratic) + delta * linear)
       predictions labels).

End Tensors.

(** The cap on the log standard deviation of the actor. *)
Definition LOG_STD_MAX : R := 2.
Definition LOG_STD_MIN : R := -20.

(** The attributes of [FeedForwardPolicy] that shape the graph.  The action
    space is a [Box] of rank one: [ac_low] and [ac_high] are its bounds,
    [ob_dim] and [co_dim] stand for [ob_space.shape[0]] and
    [co_space.shape[0]]. *)
Record FeedForwardPolicy : Type := mk_policy {
  ob_dim : nat;
  co_dim : nat;
  ac_low : list R;
  ac_high : list R;
  layers : list nat;
  layer_norm : bool;
  use_huber : bool;
  gamma : R;
  target_entropy_arg : option R;
  zero_fingerprint : bool;
  fingerprint_dim : nat
}.

(** [ac_space.shape[0]] *)
Definition ac_dim (self : FeedForwardPolicy) : nat := length (ac_low self).

(** [self.target_entropy], with the heuristic [-prod(ac_space.shape)] when the
    argument is [None]. *)
Definition target_entropy (self : FeedForwardPolicy) : R :=
  match target_entropy_arg self with
  | None => - INR (ac_dim self)
  | Some e => e
  end.

(** The placeholders of step 2 and what [feed_dict] gives them. *)
Record feed_dict : Type := mk_feed {
  obs_ph : list (list R);
  action_ph : list (list R);
  rew_ph : list (list R);
  obs1_ph : list (list R);
  terminals1 : list (list R)
}.

(** The default of the argument [eps] of [_compute_log_pis]. *)
Definition default_eps : R := 1e-6.

Arguments default_eps : simpl never.

Section Graph.
Context {T : Type} `{!TFNum T}.

#[local] Open Scope tf_scope.
#[local] Abbreviation tensor := (list (list T)).

Variable self : FeedForwardPolicy.

(** [self.act_fun] *)
Variable act_fun : T -> T.

(** [self._layer(val, num_outputs, name, act_fun, layer_norm)] of the base
    class: a dense layer with the current values of the variables that the
    enclosing variable scope and [name] designate.  Two calls under the same
    scope and name (a [reuse]) are the same function. *)
Variable _layer :
  list string -> string -> nat -> option (T -> T) -> bool -> tensor -> tensor.

(** [self._remove_fingerprint(val, ob_dim, fingerprint_dim, additional_dim)]
    of the base class. *)
Variable _remove_fingerprint : tensor -> nat -> nat -> nat -> tensor.

(** The current value of the variable [log_alpha]. *)
Variable log_alpha : T.

(** [for i, layer_size in enumerate(self.layers): h = self._layer(...)] *)
Definition hidden_layers (vs : list string) (h : tensor) : tensor :=
  foldl (fun (h : tensor) (il : nat * nat) =>
           _layer vs ("fc" +:+ pretty (fst il)) (snd il) (Some act_fun)
                  (layer_norm self) h)
        h (imap pair (layers self)).

(** [(high + low) / 2.] and [(high - low) / 2.] *)
Definition ac_means : list T :=
  tf_const <$> zip_with (fun h l : R => (h + l) / 2)%R (ac_high self) (ac_low self).

Definition ac_magnitudes : list T :=
  tf_const <$> zip_with (fun h l : R => (h - l) / 2)%R (ac_high self) (ac_low self).

Definition _compute_log_pis (policy pi_mean pi_logstd : tensor) (eps : R)
  : tensor :=
  (* Modify the actions to be bounded between (-1, 1) *)
  let policy :=
    broadcast_rows tf_div (broadcast_rows tf_sub policy ac_means)
                   ac_magnitudes in
  (* log likelihood in the pure Gaussian case. *)
  let pre_sum :=
    elementwise (fun x => tf_const (-0.5) * x)
      (elementwise (fun x => x + tf_log (tf_const (2 * PI)))
         (elementwise2 tf_add
            (elementwise tf_square
               (elementwise2 tf_div
                  (elementwise2 tf_sub policy pi_mean)
                  (elementwise (fun s => tf_exp s + tf_const eps) pi_logstd)))
            (elementwise (fun s => tf_const 2 * s) pi_logstd))) in
  let pre_sum := reduce_sum_axis1 pre_sum in
  (* including the tanh change of variables *)
  let log_pi_fn :=
    zip_with tf_sub pre_sum
      (reduce_sum_axis1
         (elementwise
            (fun a => tf_log (tf_const 1 - tf_square a + tf_const eps))
            policy)) in
  expand_dims log_pi_fn.

(** [vs] is the variable scope the call is made under; [noise] is what
    [tf.random.normal(shape=[ac_dim])] draws in this evaluation. *)
Definition make_actor (vs : list string) (obs : tensor) (noise : list R)
  : tensor * tensor :=
  let vs := vs ++ ["pi"] in
  let pi_h := obs in
  let pi_h :=
    if zero_fingerprint self then
      _remove_fingerprint pi_h (ob_dim self) (fingerprint_dim self)
                          (co_dim self)
    else pi_h in
  let pi_h := hidden_layers vs pi_h in
  let output := _layer vs "output" (2 * ac_dim self) None false pi_h in
  let '(pi_mean, pi_logstd) := tf_split2 output in
  let pi_logstd := clip_by_value pi_logstd LOG_STD_MIN LOG_STD_MAX in
  let policy :=
    elementwise2 tf_add pi_mean
      (broadcast_rows tf_mul (elementwise tf_exp pi_logstd)
                      (tf_const <$> noise)) in
  let policy :=
    broadcast_rows tf_add
      (broadcast_rows (fun t m => m * t) (elementwise tf_tanh policy)
                      ac_magnitudes)
      ac_means in
  let log_pi := _compute_log_pis policy pi_mean pi_logstd default_eps in
  (policy, log_pi).

Definition make_critic (vs : list string) (obs action : tensor)
    (scope : string) : tensor :=
  let vs := vs ++ [scope] in
  let qf_h := tf_concat obs action in
  let qf_h :=
    if zero_fingerprint self then
      _remove_fingerprint qf_h (ob_dim self) (fingerprint_dim self)
                          (co_dim self + ac_dim self)
    else qf_h in
  let qf_h := hidden_layers vs qf_h in
  _layer vs "qf_output" 1 None false qf_h.

(** *** Step 3 of [__init__]

    [fd] is the feed of one evaluation, [noise] and [noise1] the draws of
    the two [tf.random.normal] nodes (one per call of [make_actor]). *)
Section Evaluation.
Variable fd : feed_dict.
Variables noise noise1 : list R.

Definition actor_tf : tensor :=
  fst (make_actor ["model"] (placeholder (obs_ph fd)) noise).

Definition log_pi : tensor :=
  snd (make_actor ["model"] (placeholder (obs_ph fd)) noise).

Definition critic_tf (i : nat) : tensor :=
  make_critic ["model"] (placeholder (obs_ph fd))
              (placeholder (action_ph fd)) ("qf_" +:+ pretty i).

Definition critic_with_actor_tf (i : nat) : tensor :=
  make_critic ["model"] (placeholder (obs_ph fd)) actor_tf
              ("qf_" +:+ pretty i).

Definition actor_target : tensor :=
  fst (make_actor ["model"] (placeholder (obs1_ph fd)) noise1).

Definition next_log_pi : tensor :=
  snd (make_actor ["model"] (placeholder (obs1_ph fd)) noise1).

Definition critic_target (i : nat) : tensor :=
  make_critic ["target"] (placeholder (obs1_ph fd)) actor_target
              ("qf_" +:+ pretty i).

(** *** [_setup_actor_optimizer] *)

Definition alpha : T := tf_exp log_alpha.

Definition alpha_loss : T :=
  - reduce_mean
      (elementwise
         (fun x => log_alpha * stop_gradient (x + tf_const (target_entropy self)))
         log_pi).

Definition actor_loss : T :=
  reduce_mean
    (elementwise2 tf_sub
       (elementwise (fun x => alpha * x) log_pi)
       (elementwise2 tf_minimum (critic_tf 0) (critic_tf 1))).

(** *** [_setup_critic_optimizer] *)

Definition q_obs1 : tensor :=
  elementwise2 tf_sub
    (elementwise2 tf_minimum (critic_target 0) (critic_target 1))
    (elementwise (fun x => alpha * x) next_log_pi).

Definition target_q : tensor :=
  elementwise stop_gradient
    (elementwise2 tf_add (placeholder (rew_ph fd))
       (elementwise2 tf_mul
          (elementwise (fun t => (tf_const 1 - t) * tf_const (gamma self))
                       (placeholder (terminals1 fd)))
          q_obs1)).

Definition loss_fn : tensor -> tensor -> T :=
  if use_huber self then huber_loss else mean_squared_error.

Definition critic_loss : T :=
  loss_fn (critic_tf 0) target_q + loss_fn (critic_tf 1) target_q.

End Evaluation.

End Graph.

(** *** The replay buffer *)

(** Modelled from the spec: a stored transition
    [(obs, action, reward, next_obs, terminal)]; [store_transition] stores the
    terminal flag as a float. *)
Record transition : Type := mk_transition {
  t_obs0 : list R;
  t_action : list R;
  t_reward : R;
  t_obs1 : list R;
  t_terminal : R
}.

(** Modelled from the spec: the class [ReplayBuffer] of
    [hbaselines/fcnet/replay_buffer.py], which is not among the sources.  A
    ring of capacity [buffer_size]; [storage] holds the transitions stored so
    far. *)
Record ReplayBuffer : Type := mk_buffer {
  buffer_size : nat;
  batch_size : nat;
  storage : list transition;
  next_idx : nat
}.

(** Modelled from the spec: [can_sample()] is true iff the stored count is at
    least the configured batch size. *)
Definition can_sample (rb : ReplayBuffer) : bool :=
  bool_decide (batch_size rb <= length (storage rb))%nat.

(** The parallel arrays [(obs0, actions, rewards, obs1, extra, terminal1)]. *)
Definition batch : Type :=
  list (list R) * list (list R) * list R * list (list R) * list (list R) * list R.

(** Modelled from the spec: [sample()] draws [batch_size] stored transitions
    uniformly at random with replacement.  [draw k] is the [k]-th random
    number of the call; it is reduced to an index of the storage. *)
Definition sample (rb : ReplayBuffer) (draw : nat -> nat) : batch :=
  let picked :=
    omap (fun k : nat => storage rb !! (draw k mod length (storage rb))%nat)
         (seq 0 (batch_size rb)) in
  (t_obs0 <$> picked, t_action <$> picked, t_reward <$> picked,
   t_obs1 <$> picked, [], t_terminal <$> picked).

(** *** The session *)

(** The nodes of the graph that the policy asks the session for. *)
Inductive fetch : Type :=
| critic_loss_node
| actor_loss_node
| alpha_loss_node
| critic_optimizer (i : nat)
| actor_optimizer
| alpha_optimizer
| target_soft_updates
| target_init_updates.

(** What [sess.run] gives back for a node: a number for a tensor, [None] for
    an operation. *)
Inductive fetched : Type :=
| Value (x : R)
| PyNone.

(** [sess.run(fetches, feed_dict)]: TensorFlow's runtime, with the variables
    of the graph as its state.  One result per fetch is what TensorFlow
    returns; the model does not rely on it. *)
Class Session (S : Type) : Type := {
  run : S -> list fetch -> option feed_dict -> S * list fetched
}.

Section Update.
Context {S : Type} `{!Session S}.

(** The mutable parts of the policy object. *)
Record policy_object : Type := mk_object {
  replay_buffer : ReplayBuffer;
  sess : S
}.

(** [a.reshape(-1, 1)] *)
Definition reshape_col (a : list R) : list (list R) := (fun x => [x]) <$> a.

Definition update_from_batch (self : policy_object)
    (obs0 actions : list (list R)) (rewards : list R) (obs1 : list (list R))
    (terminals1 : list R) : outcome (fetched * fetched * policy_object) :=
  let rewards := reshape_col rewards in
  let terminals1 := reshape_col terminals1 in
  let step_ops :=
    [critic_loss_node; actor_loss_node; alpha_loss_node;
     critic_optimizer 0; critic_optimizer 1;
     actor_optimizer; alpha_optimizer; target_soft_updates] in
  let feed_dict := mk_feed obs0 actions rewards obs1 terminals1 in
  let '(sess', results) := run (sess self) step_ops (Some feed_dict) in
  match results with
  | critic_loss :: actor_loss :: _ =>
      Ok (critic_loss, actor_loss, mk_object (replay_buffer self) sess')
  | _ => Raised ValueError
  end.

(** [draw] is the random source that [sample] reads. *)
Definition update (self : policy_object) (draw : nat -> nat)
  : outcome (fetched * fetched * policy_object) :=
  if negb (can_sample (replay_buffer self)) then
    Ok (Value 0, Value 0, self)
  else
    let '(obs0, actions, rewards, obs1, _, done1) :=
      sample (replay_buffer self) draw in
    update_from_batch self obs0 actions rewards obs1 done1.

Definition initialize (self : policy_object) : policy_object :=
  let '(sess', _) := run (sess self) [target_init_updates] None in
  mk_object (replay_buffer self) sess'.

End Update.

Arguments policy_object S : clear implicits.

(** *** [get_td_map] *)

(** [{}] is [None]; a dict with the five placeholders is [Some] of it. *)
Definition get_td_map_from_batch (obs0 actions : list (list R)) (rewards : list R)
    (obs1 : list (list R)) (terminals1 : list R) : option feed_dict :=
  let rewards := reshape_col rewards in
  let terminals1 := reshape_col terminals1 in
  Some (mk_feed obs0 actions rewards obs1 terminals1).

Definition get_td_map {S : Type} (self : policy_object S) (draw : nat -> nat)
  : option feed_dict :=
  if negb (can_sample (replay_buffer self)) then None
  else
    let '(obs0, actions, rewards, obs1, _, done1) :=
      sample (replay_buffer self) draw in
    get_td_map_from_batch obs0 actions rewards obs1 done1.

(** *** [_clip_but_pass_gradient] *)

(** [tf.cast(x > c, tf.float32)] and [tf.cast(x < c, tf.float32)] against a
    Python float: [1.] or [0.], a value without derivative. *)
Class TFCompare (T : Type) : Type := {
  cast_greater : T -> R -> T;
  cast_less : T -> R -> T
}.

#[global] Instance R_compare : TFCompare R := {
  cast_greater x c := if Rlt_dec c x then 1 else 0;
  cast_less x c := if Rlt_dec x c then 1 else 0
}.

#[global] Instance dual_compare : TFCompare dual := {
  cast_greater x c := mk_dual (if Rlt_dec c (val x) then 1 else 0) 0;
  cast_less x c := mk_dual (if Rlt_dec (val x) c then 1 else 0) 0
}.

(** On one entry of the tensor; the defaults of [lower] and [upper] are [-1.]
    and [1.]. *)
Definition _clip_but_pass_gradient {T : Type} `{!TFNum T} `{!TFCompare T}
    (input_ : T) (lower upper : R) : T :=
  let clip_up := cast_greater input_ upper in
  let clip_low := cast_less input_ lower in
  tf_add input_
    (stop_gradient
       (tf_add (tf_mul (tf_sub (tf_const upper) input_) clip_up)
               (tf_mul (tf_sub (tf_const lower) input_) clip_low))).

End SAC.

(** ** Reference definitions and sample inputs *)

Import TRPO.

Section AdvantageReference.
Context {P Obs : Type} `{!PolicyModel P Obs}.
Variables (pi : P) (gamma lam : R) (ignore_dones : bool).

(** The one-step temporal-difference error of a transition. *)
Definition td_error (o o' : Obs) (r : R) (d : bool) : R :=
  r + gamma * (if ignore_dones then 1 else 1 - b2r d) * value pi o'
  - value pi o.

(** The advantages by recursion on the trajectory: the advantage of a step
    is its error plus the decayed advantage of the step after it. *)
Fixpoint gae_ref (os os' : list Obs) (rs : list R) (ds : list bool) : list R :=
  match os, os', rs, ds with
  | o :: os, o' :: os', r :: rs, d :: ds =>
      let rest := gae_ref os os' rs ds in
      (td_error o o' r d + gamma * lam * (1 - b2r d) * hd 0 rest) :: rest
  | _, _, _, _ => []
  end.

(** [sum_k (gamma*lam)^k * e_k] over a list of errors. *)
Fixpoint discounted_sum (es : list R) : R :=
  match es with
  | [] => 0
  | e :: es => e + gamma * lam * discounted_sum es
  end.

(** The errors of the steps of a trajectory, in order. *)
Fixpoint td_errors (os os' : list Obs) (rs : list R) (ds : list bool) : list R :=
  match os, os', rs, ds with
  | o :: os, o' :: os', r :: rs, d :: ds =>
      td_error o o' r d :: td_errors os os' rs ds
  | _, _, _, _ => []
  end.

End AdvantageReference.

(** A policy whose value function reads the observation, a natural number,
    as the value; its action is always [[2]]. *)
#[local] Instance count_policy : PolicyModel unit nat := {
  compute_action p _ := (p, [2]);
  value _ o := INR o
}.

(** Three steps of reward [1] without a terminal step; every observation
    is [1], so the value prediction is [1] throughout. *)
Definition three_steps : segment nat :=
  mk_segment [1; 1; 1]%nat [1; 1; 1]%nat [1; 1; 1] [false; false; false]
             [[2]; [2]; [2]] [] [] 3.

(** Two steps, the first one terminal. *)
Definition terminal_then_step : segment nat :=
  mk_segment [1; 1]%nat [1; 1]%nat [1; 1] [true; false] [[2]; [2]] [1] [1%nat] 2.

(** A completed episode, as the steps [(reward, done)] it is made of: its
    last step is terminal and no step before it is. *)
Definition complete_episode (ep : list (R * bool)) : Prop :=
  exists steps r, ep = steps ++ [(r, true)] /\ Forall (fun s => s.2 = false) steps.

Definition episode_return (ep : list (R * bool)) : R := Rsum ep.*1.

(** The actions a policy gives along a list of observations, with the state
    the policy is left in. *)
Fixpoint policy_run {P Obs : Type} `{!PolicyModel P Obs} (pi : P) (os : list Obs)
  : P * list (list R) :=
  match os with
  | [] => (pi, [])
  | o :: os =>
      let '(pi, a) := compute_action pi o in
      let '(pi, acts) := policy_run pi os in
      (pi, a :: acts)
  end.

(** An environment that also keeps the list of the actions [step] was called
    with; it behaves as the environment it wraps. *)
#[local] Instance recording (E Obs : Type) `{!Environment E Obs}
  : Environment (E * list (list R)) Obs := {
  reset el := let '(e, o) := reset el.1 in ((e, el.2), o);
  step el a := let '(e, res) := step el.1 a in ((e, el.2 ++ [a]), res);
  action_space := action_space E
}.

(** The policy never returns an action whose shape differs from the bounds of
    a [Box] action space. *)
Definition actions_fit (E P Obs : Type) `{!Environment E Obs} `{!PolicyModel P Obs}
  : Prop :=
  match action_space E with
  | Box low high =>
      length low = length high /\
      forall (pi : P) (o : Obs), length (compute_action pi o).2 = length low
  | _ => True
  end.

(** An environment over [[-1, 1]] that counts its steps: the observation is
    the count, the reward is [1], and every third step ends an episode. *)
#[local] Instance counting_env : Environment nat nat := {
  reset _ := (0%nat, 0%nat);
  step e _ := (S e, (S e, 1, bool_decide (S e = 3)%nat));
  action_space := Box [-1] [1]
}.

Section SamplerInvariants.
Context {E P Obs : Type} `{!Environment E Obs} `{!PolicyModel P Obs}.

(** What holds of the local variables of [_collect_samples] each time the
    loop test is reached: the arrays go in step, the steps so far split into
    the completed episodes and the steps of the running one, and the
    counters of the running episode are its return and its length. *)
Definition episodes_inv (st : locals (E := E) (P := P) (Obs := Obs)) : Prop :=
  length (l_next_observations st) = length (l_observations st) /\
  length (l_rewards st) = length (l_observations st) /\
  length (l_dones st) = length (l_observations st) /\
  length (l_actions st) = length (l_observations st) /\
  exists episodes rest,
    zip (l_rewards st) (l_dones st) = concat episodes ++ rest /\
    Forall complete_episode episodes /\
    Forall (fun s => s.2 = false) rest /\
    l_ep_rets st = episode_return <$> episodes /\
    l_ep_lens st = length <$> episodes /\
    cur_ep_ret st = episode_return rest /\
    current_ep_len st = length rest.

(** The recorded actions are those of the policy, started in [pi0], along the
    recorded observations. *)
Definition actions_inv (pi0 : P) (st : locals (E := E) (P := P) (Obs := Obs))
  : Prop :=
  policy_run pi0 (l_observations st) = (l_policy_pi st, l_actions st).

End SamplerInvariants.

Section RecordingInvariants.
Context {E P Obs : Type} `{!Environment E Obs} `{!PolicyModel P Obs}.

(** Over the recording environment: the actions [step] was called with are
    the recorded actions, clipped. *)
Definition log_inv (low high : list R)
    (st : locals (E := E * list (list R)) (P := P) (Obs := Obs)) : Prop :=
  Forall2 (fun a c => np_clip a low high = Ok c) (l_actions st) (l_env st).2.

(** The local variables over the recording environment, seen over the
    environment it wraps. *)
Definition erase (st : locals (E := E * list (list R)) (P := P) (Obs := Obs))
  : locals (E := E) (P := P) (Obs := Obs) :=
  mk_locals (l_env st).1 (l_policy_pi st) (l_obs st) (l_observations st)
            (l_next_observations st) (l_rewards st) (l_dones st)
            (l_actions st) (cur_ep_ret st) (current_ep_len st)
            (l_ep_rets st) (l_ep_lens st).

End RecordingInvariants.

(** A driver before its first iteration, and a segment of two steps in which
    no episode came to its end. *)
Definition fresh_algorithm : algorithm := mk_algorithm [] [] 0 0 0 [].

Definition no_episode_segment : segment nat :=
  mk_segment [0; 1]%nat [1; 2]%nat [1; 1] [false; false] [[2]; [2]] [] [] 2.

Import SAC.

(** The actor loss as the design document words it: the twin critics at the
    actor's own action. *)
Definition actor_loss_own_action {T : Type} `{!TFNum T}
    (self : FeedForwardPolicy) (act_fun : T -> T)
    (_layer : list string -> string -> nat -> option (T -> T) -> bool ->
              list (list T) -> list (list T))
    (_remove_fingerprint : list (list T) -> nat -> nat -> nat -> list (list T))
    (log_alpha : T) (fd : feed_dict) (noise : list R) : T :=
  reduce_mean
    (elementwise2 tf_sub
       (elementwise (fun x => tf_mul (alpha log_alpha) x)
          (log_pi self act_fun _layer _remove_fingerprint fd noise))
       (elementwise2 tf_minimum
          (critic_with_actor_tf self act_fun _layer _remove_fingerprint fd noise 0)
          (critic_with_actor_tf self act_fun _layer _remove_fingerprint fd noise 1))).

(** The log-density of a Gaussian of mean [mu] and log standard deviation
    [logstd] at [u], one dimension.  [guard] is added to the standard
    deviation: [0] for the density itself, [eps] for a density guarded
    against a zero deviation. *)
Definition gaussian_log_density (guard u mu logstd : R) : R :=
  - (1 / 2)
  * (((u - mu) / (exp logstd + guard)) ^ 2 + 2 * logstd + ln (2 * PI)).

(** The log-probability as the design document words it, for one row of the
    batch: the Gaussian log-density at the pre-squash value [u], minus
    [log(1 - normalized_action^2 + eps)] per dimension, where
    [normalized_action = (squashed_action - action_mean) / action_magnitude]. *)
Definition squashed_log_prob (low high : list R) (guard : R)
    (u mu logstd squashed : list R) (eps : R) : R :=
  Rsum (zip_with (fun um s => gaussian_log_density guard um.1 um.2 s)
                 (zip u mu) logstd)
  - Rsum (zip_with
            (fun a hl =>
               let normalized_action :=
                 (a - (hl.1 + hl.2) / 2) / ((hl.1 - hl.2) / 2) in
               ln (1 - normalized_action ^ 2 + eps))
            squashed (zip high low)).

(** A policy over the action space [[-1, 1]] with one hidden layer. *)
Definition sample_policy : FeedForwardPolicy :=
  mk_policy 1 0 [-1] [1] [1%nat] false false (99 / 100) None false 2.

(** Layers for the sample policy: the hidden layers pass their input on, the
    output layer of the actor gives mean [1] and log standard deviation [0],
    and the output layer of a critic gives the last entry of its input, which
    is the action. *)
Definition sample_layer {T : Type} `{!TFNum T} (vs : list string) (name : string)
    (num_outputs : nat) (act_fun : option (T -> T)) (layer_norm : bool)
    (x : list (list T)) : list (list T) :=
  if String.eqb name "output" then
    (fun _ : list T => [tf_const 1; tf_const 0]) <$> x
  else if String.eqb name "qf_output" then
    (fun row : list T => [List.last row (tf_const 0)]) <$> x
  else x.

Definition sample_remove_fingerprint {T : Type} (x : list (list T))
    (ob_dim fingerprint_dim additional_dim : nat) : list (list T) := x.

(** One transition: observation [0], batch action [1], reward [0]. *)
Definition sample_feed : feed_dict := mk_feed [[0]] [[1]] [[0]] [[0]] [[0]].

(** A session that only keeps the list of the calls of [run] made on it;
    it answers [0] for a loss and [None] for an operation. *)
#[local] Instance tracing_session : Session (list (list fetch * option feed_dict)) := {
  run s fetches fd :=
    (s ++ [(fetches, fd)],
     (fun f =>
        match f with
        | critic_loss_node | actor_loss_node | alpha_loss_node => Value 0
        | _ => PyNone
        end) <$> fetches)
}.

(** A buffer of capacity [5] and batch size [2]: with one transition stored,
    and with two. *)
Definition sample_transition : transition := mk_transition [0] [1] 0 [0] 0.

Definition short_buffer : ReplayBuffer := mk_buffer 5 2 [sample_transition] 1.

Definition stocked_buffer : ReplayBuffer :=
  mk_buffer 5 2 [sample_transition; sample_transition] 2.

Section MoreSamplerInvariants.
Context {E P Obs : Type} `{!Environment E Obs} `{!PolicyModel P Obs}.

(** With the observation the next pass starts from put after the recorded
    ones: the observation after a step that did not end an episode is the
    one the step led to. *)
Definition chain_inv (st : locals (E := E) (P := P) (Obs := Obs)) : Prop :=
  forall k o',
    l_next_observations st !! k = Some o' ->
    l_dones st !! k = Some false ->
    (l_observations st ++ [l_obs st]) !! S k = Some o'.

(** Over the recording environment: the calls of [step] and the recorded
    actions are related pairwise by [rel]. *)
Definition calls_inv (rel : list R -> list R -> Prop)
    (st : locals (E := E * list (list R)) (P := P) (Obs := Obs)) : Prop :=
  Forall2 rel (l_actions st) (l_env st).2.

(** The segment that [_collect_samples] builds from its local variables. *)
Definition segment_of (st : locals (E := E) (P := P) (Obs := Obs)) : segment Obs :=
  mk_segment (l_observations st) (l_next_observations st) (l_rewards st)
             (l_dones st) (l_actions st) (l_ep_rets st) (l_ep_lens st)
             (length (l_observations st)).

End MoreSamplerInvariants.

(** A policy that stays within [[-1, 1]]. *)
#[local] Instance tame_policy : PolicyModel bool nat := {
  compute_action p _ := (negb p, [if p then 1 / 2 else - (1 / 2)]);
  value _ o := INR o
}.

(** An environment with a discrete action space; it counts its steps and
    every second step ends an episode. *)
#[local] Instance discrete_env : Environment Z nat := {
  reset _ := (0%Z, 0%nat);
  step e _ := ((e + 1)%Z, (Z.to_nat (e + 1), 1, bool_decide (e + 1 = 2)%Z));
  action_space := Discrete 3
}.

(** Rewards without observations. *)
Definition rewards_only : segment nat :=
  mk_segment [] [] [1; 1] [] [] [] [] 0.

(** A trainer that changes nothing and reports no loss. *)
#[local] Instance idle_trainer : Trainer unit unit nat := {
  _train a p seg est _ := Ok (a, p, ([], vpred est, tdlamret est))
}.

(** A driver over the counting environment with batches of [4] steps, and
    one whose batches are empty. *)
Definition sample_world : world (E := nat) (P := unit) (A := unit) :=
  mk_world (mk_rl 0%nat tt tt 4 (99 / 100) (95 / 100) 0 fresh_algorithm) 0 [].


(** One collected step: the observation the policy was asked about, the
    action it returned, and the answer of the environment. *)
Record timestep (Obs : Type) : Type := mk_timestep {
  ts_obs : Obs;
  ts_action : list R;
  ts_next_obs : Obs;
  ts_reward : R;
  ts_done : bool
}.

Arguments mk_timestep {Obs}.
Arguments ts_obs {Obs}.
Arguments ts_action {Obs}.
Arguments ts_next_obs {Obs}.
Arguments ts_reward {Obs}.
Arguments ts_done {Obs}.

Section Trajectories.
Context {E P Obs : Type} `{!Environment E Obs} `{!PolicyModel P Obs}.

(** [trajectory env pi obs steps env' pi' obs']: started with the environment
    in [env], the policy in [pi] and [obs] the current observation, [steps]
    are consecutive transitions of the environment.  In each of them the
    policy is asked for its action at the current observation, the
    environment is stepped from the state the step before left it in, with
    that action (clipped when the space is a [Box]), and what it answers is
    the next observation, the reward and the done flag of the step; after a
    terminal step the environment is reset and its first observation is the
    current one, otherwise the next observation is.  [env'], [pi'] and [obs']
    are what the last step leaves. *)
Fixpoint trajectory (env : E) (pi : P) (obs : Obs) (steps : list (timestep Obs))
    (env' : E) (pi' : P) (obs' : Obs) {struct steps} : Prop :=
  match steps with
  | [] => env' = env /\ pi' = pi /\ obs' = obs
  | s :: steps =>
      ts_obs s = obs /\
      exists pi1 clipped_action env1 env2 obs2,
        compute_action pi obs = (pi1, ts_action s) /\
        match action_space E with
        | Box low high => np_clip (ts_action s) low high
        | _ => Ok (ts_action s)
        end = Ok clipped_action /\
        step env clipped_action
        = (env1, (ts_next_obs s, ts_reward s, ts_done s)) /\
        (if ts_done s then reset env1 = (env2, obs2)
         else env2 = env1 /\ obs2 = ts_next_obs s) /\
        trajectory env2 pi1 obs2 steps env' pi' obs'
  end.

(** The local variables of [_collect_samples] hold a trajectory that started
    from [env0], [pi0] and [obs0]: the five arrays are its columns. *)
Definition trajectory_inv (env0 : E) (pi0 : P) (obs0 : Obs)
    (st : locals (E := E) (P := P) (Obs := Obs)) : Prop :=
  exists steps,
    trajectory env0 pi0 obs0 steps (l_env st) (l_policy_pi st) (l_obs st) /\
    l_observations st = ts_obs <$> steps /\
    l_actions st = ts_action <$> steps /\
    l_next_observations st = ts_next_obs <$> steps /\
    l_rewards st = ts_reward <$> steps /\
    l_dones st = ts_done <$> steps.

End Trajectories.

(** A value of the [stats] dict of [_log_training]: an [int], a [float] or a
    numpy float. *)
Inductive stat_value : Type :=
| SInt (n : nat)
| SFloat (x : R)
| SNumpy (x : npfloat).

(** A Python dict with string keys, in insertion order.  [d[k] = v] replaces
    the value of a key the dict has and adds the key at the end otherwise. *)
Fixpoint dict_set {V : Type} (k : string) (v : V) (d : list (string * V))
  : list (string * V) :=
  match d with
  | [] => [(k, v)]
  | (k', v') :: d' =>
      if String.eqb k k' then (k', v) :: d' else (k', v') :: dict_set k v d'
  end.

Fixpoint dict_get {V : Type} (k : string) (d : list (string * V)) : option V :=
  match d with
  | [] => None
  | (k', v) :: d' => if String.eqb k k' then Some v else dict_get k d'
  end.

(** The keys of the dict literal in [_log_training]. *)
Definition statistic_names : list string :=
  ["episode_steps"; "mean_return_history"; "mean_return"; "max_return";
   "min_return"; "std_return"; "episodes_this_itr"; "episodes_total";
   "total_steps"; "epoch"; "duration"; "steps_per_second";
   "explained_variance"].

(** The dict literal [stats = {...}]. *)
Definition stats_literal (st : stats) : list (string * stat_value) :=
  [("episode_steps", SNumpy (episode_steps st));
   ("mean_return_history", SNumpy (mean_return_history st));
   ("mean_return", SNumpy (mean_return st));
   ("max_return", SFloat (max_return st));
   ("min_return", SFloat (min_return st));
   ("std_return", SNumpy (std_return st));
   ("episodes_this_itr", SInt (episodes_this_itr st));
   ("episodes_total", SInt (episodes_total st));
   ("total_steps", SInt (total_steps st));
   ("epoch", SInt (epoch st));
   ("duration", SFloat (duration st));
   ("steps_per_second", SFloat (steps_per_second st));
   ("explained_variance", SNumpy (explained_variance_stat st))].

(** The dict after [for (loss_name, loss_val) in zip(...):
    stats[loss_name] = loss_val]: the row that is written and printed. *)
Definition stats_dict (st : stats) : list (string * stat_value) :=
  foldl (fun d (p : string * R) => dict_set p.1 (SFloat p.2) d)
        (stats_literal st) (losses st).

(** A driver whose trainer reports one loss. *)
Definition named_algorithm : algorithm := mk_algorithm [] [] 0 0 0 ["vf_loss"].

(** ** Properties of the advantage estimator *)

Lemma drop_insert_same {A : Type} (l : list A) (k : nat) (x : A) :
  (k < length l)%nat -> drop k (<[k:=x]> l) = x :: drop (S k) l.
Proof.
  revert k. induction l as [|y l IH]; intros [|k]; simpl; intros; try lia.
  - done.
  - apply IH. lia.
Qed.

Lemma for_each_cons {A S : Type} (body : S -> A -> outcome S) x xs s :
  for_each body (x :: xs) s = body s x ≫= for_each body xs.
Proof. reflexivity. Qed.

Section AdvantageFacts.
Context {P Obs : Type} `{!PolicyModel P Obs}.
Variables (uninit : nat -> R) (pi : P) (gamma lam : R) (ignore_dones : bool).

#[local] Abbreviation ref := (gae_ref pi gamma lam ignore_dones).

Lemma gae_ref_length os os' rs ds :
  length os = length rs -> length os' = length rs -> length ds = length rs ->
  length (ref os os' rs ds) = length rs.
Proof.
  revert os' rs ds. induction os as [|o os IH]; intros [|o' os'] [|r rs] [|d ds];
    simpl; intros; try lia.
  rewrite IH; lia.
Qed.

Lemma gae_ref_lookup os os' rs ds step o o' r d :
  os !! step = Some o -> os' !! step = Some o' ->
  rs !! step = Some r -> ds !! step = Some d ->
  ref os os' rs ds !! step
  = Some (td_error pi gamma ignore_dones o o' r d
          + gamma * lam * (1 - b2r d)
            * hd 0 (drop (S step) (ref os os' rs ds))).
Proof.
  revert os' rs ds step.
  induction os as [|a os IH]; intros [|a' os'] [|b rs] [|c ds] [|step];
    simpl; intros; try discriminate.
  - simplify_eq. by rewrite drop_0.
  - by apply IH.
Qed.

Lemma hd_drop_lookup (l : list R) (i : nat) :
  hd 0 (drop i l) = default 0 (l !! i).
Proof.
  revert i. induction l as [|x l IH]; intros [|i]; simpl; try done.
Qed.

Lemma gae_ref_step os os' rs ds step o o' r d :
  os !! step = Some o -> os' !! step = Some o' ->
  rs !! step = Some r -> ds !! step = Some d ->
  ref os os' rs ds !! step
  = Some (td_error pi gamma ignore_dones o o' r d
          + gamma * lam * (1 - b2r d)
            * default 0 (ref os os' rs ds !! S step)).
Proof.
  intros. rewrite <- hd_drop_lookup. by apply gae_ref_lookup.
Qed.

Lemma td_errors_length os os' rs ds :
  length (td_errors pi gamma ignore_dones os os' rs ds)
  = length (ref os os' rs ds).
Proof.
  revert os' rs ds. induction os as [|o os IH]; intros [|o' os'] [|r rs] [|d ds];
    simpl; try done.
  by rewrite IH.
Qed.

(** Without terminal steps the advantage of a step is the discounted sum
    of the errors from that step on. *)
Lemma gae_ref_discounted os os' rs ds step :
  Forall (eq false) ds -> (step < length (ref os os' rs ds))%nat ->
  ref os os' rs ds !! step
  = Some (discounted_sum gamma lam
            (drop step (td_errors pi gamma ignore_dones os os' rs ds))).
Proof.
  revert os' rs ds step.
  induction os as [|o os IH]; intros [|o' os'] [|r rs] [|d ds] step Hd Hlt;
    simpl in *; try lia.
  inversion Hd as [|? ? Hd0 Hds]; subst.
  destruct step as [|step]; simpl.
  - f_equal. f_equal.
    destruct (ref os os' rs ds) as [|g rest] eqn:Hg.
    + pose proof (td_errors_length os os' rs ds) as Hlen.
      rewrite Hg in Hlen.
      destruct (td_errors pi gamma ignore_dones os os' rs ds); [|done].
      simpl. lra.
    + specialize (IH os' rs ds 0%nat Hds). rewrite Hg in IH.
      simpl in IH. rewrite drop_0 in IH.
      assert (Hgs : g = discounted_sum gamma lam
                          (td_errors pi gamma ignore_dones os os' rs ds)).
      { assert (H0 : (0 < S (length rest))%nat) by lia.
        specialize (IH H0). by simplify_eq. }
      simpl. rewrite <- Hgs. lra.
  - apply IH; [done | lia].
Qed.

(** The geometric series: [(1 - q) * sum_(k<m) q^k * e = e * (1 - q^m)]. *)
Lemma discounted_sum_constant (e : R) (m : nat) :
  (1 - gamma * lam) * discounted_sum gamma lam (replicate m e)
  = e * (1 - (gamma * lam) ^ m).
Proof.
  induction m as [|m IH]; simpl.
  - lra.
  - transitivity (e * (1 - gamma * lam)
                  + gamma * lam
                    * ((1 - gamma * lam)
                       * discounted_sum gamma lam (replicate m e))).
    + lra.
    + rewrite IH. lra.
Qed.

Lemma td_errors_constant os os' rs ds r0 v :
  length os = length rs -> length os' = length rs -> length ds = length rs ->
  Forall (eq r0) rs -> Forall (eq false) ds ->
  Forall (fun o => value pi o = v) os -> Forall (fun o => value pi o = v) os' ->
  td_errors pi gamma ignore_dones os os' rs ds
  = replicate (length rs) (r0 + gamma * v - v).
Proof.
  revert os' rs ds.
  induction os as [|o os IH]; intros [|o' os'] [|r rs] [|d ds];
    simpl; intros Ho Ho' Hd Hr Hds Hv Hv'; try lia; try done.
  apply Forall_cons in Hr as [<- Hr]. apply Forall_cons in Hds as [<- Hds].
  apply Forall_cons in Hv as [Hv0 Hv]. apply Forall_cons in Hv' as [Hv0' Hv'].
  rewrite IH by (try done; lia). f_equal.
  unfold td_error. rewrite Hv0, Hv0'. simpl. destruct ignore_dones; ring.
Qed.

Section Loop.
Variable seg : segment Obs.
Hypothesis Hobs : length (observations seg) = length (rewards seg).
Hypothesis Hnext : length (next_observations seg) = length (rewards seg).
Hypothesis Hdones : length (dones seg) = length (rewards seg).

#[local] Abbreviation G :=
  (ref (observations seg) (next_observations seg) (rewards seg) (dones seg)).
#[local] Abbreviation V := (value pi <$> observations seg).
#[local] Abbreviation body := (gae_body pi seg gamma lam ignore_dones).

Lemma gae_body_step k a v o o' r d :
  observations seg !! k = Some o -> next_observations seg !! k = Some o' ->
  rewards seg !! k = Some r -> dones seg !! k = Some d ->
  body (a, v, hd 0 (drop (S k) G)) k
  = Ok (<[k := default 0 (G !! k)]> a, <[k := value pi o]> v,
        default 0 (G !! k)).
Proof.
  intros Ho Ho' Hr Hd. unfold gae_body, getitem.
  rewrite Ho, Ho', Hd, Hr. simpl.
  rewrite (gae_ref_lookup _ _ _ _ _ _ _ _ _ Ho Ho' Hr Hd). simpl.
  unfold td_error. done.
Qed.

(** Going down from index [k], the loop fills the slots below [k] with
    the reference values and leaves the others as they are. *)
Lemma gae_loop_fills k a v :
  (k <= length (rewards seg))%nat ->
  length a = length (rewards seg) -> length v = length (rewards seg) ->
  exists last,
    for_each body (rev (seq 0 k)) (a, v, hd 0 (drop k G))
    = Ok (take k G ++ drop k a, take k V ++ drop k v, last).
Proof.
  revert a v. induction k as [|k IH]; intros a v Hk Ha Hv.
  - exists (hd 0 (drop 0 G)). simpl. by rewrite !drop_0.
  - replace (rev (seq 0 (S k))) with (k :: rev (seq 0 k))
      by (by rewrite seq_S, rev_app_distr).
    rewrite for_each_cons.
    destruct (lookup_lt_is_Some_2 (observations seg) k) as [o Ho]; [lia|].
    destruct (lookup_lt_is_Some_2 (next_observations seg) k) as [o' Ho']; [lia|].
    destruct (lookup_lt_is_Some_2 (rewards seg) k) as [r Hr]; [lia|].
    destruct (lookup_lt_is_Some_2 (dones seg) k) as [d Hd]; [lia|].
    rewrite (gae_body_step k a v o o' r d Ho Ho' Hr Hd). simpl.
    assert (HG : length G = length (rewards seg)) by by apply gae_ref_length.
    destruct (lookup_lt_is_Some_2 G k) as [g Hg]; [lia|].
    rewrite Hg. simpl.
    assert (Hlast : g = hd 0 (drop k G)).
    { rewrite hd_drop_lookup, Hg. done. }
    destruct (IH (<[k:=g]> a) (<[k:=value pi o]> v)) as [last Hrun];
      [lia | by rewrite length_insert | by rewrite length_insert |].
    rewrite <- Hlast in Hrun.
    exists last. rewrite Hrun. f_equal. f_equal. f_equal.
    + rewrite (take_S_r G k g Hg), <- app_assoc. f_equal.
      apply drop_insert_same. lia.
    + assert (HV : V !! k = Some (value pi o)) by by rewrite list_lookup_fmap, Ho.
      rewrite (take_S_r V k _ HV), <- app_assoc. f_equal.
      apply drop_insert_same. lia.
Qed.

(** The estimator returns, whatever the fresh arrays held, and its
    advantages are the reference ones. *)
Lemma add_vtarg_and_adv_ref :
  _add_vtarg_and_adv uninit pi seg gamma lam ignore_dones
  = Ok (mk_estimates G V (zip_with Rplus G V)).
Proof.
  unfold _add_vtarg_and_adv.
  assert (HG : length G = length (rewards seg)) by by apply gae_ref_length.
  destruct (gae_loop_fills (length (rewards seg))
              (np_empty uninit (length (rewards seg)))
              (np_empty uninit (length (rewards seg)))) as [last Hrun].
  - lia.
  - unfold np_empty. by rewrite length_fmap, length_seq.
  - unfold np_empty. by rewrite length_fmap, length_seq.
  - rewrite (drop_ge G) in Hrun by lia. simpl in Hrun.
    rewrite Hrun. simpl.
    assert (Hempty : length (np_empty uninit (length (rewards seg)))
                     = length (rewards seg)).
    { unfold np_empty. by rewrite length_fmap, length_seq. }
    rewrite (drop_ge (np_empty _ _)) by lia. rewrite !app_nil_r.
    rewrite (take_ge G) by lia.
    rewrite (take_ge V) by (rewrite length_fmap; lia). done.
Qed.

(** C2: the advantage estimator returns, and for every step
    [delta = reward[step] + gamma*notdone*next_vpred - vpred] and
    [advantage[step] = delta + gamma*lambda*(1-done[step])*running_advantage],
    where the running advantage is the advantage of the step after (zero at
    the last step): the steps are filled from the last to the first.  With a
    constant reward and no terminal step the advantage of a step is the
    geometric series [sum_k (gamma*lambda)^k * delta[step+k]], which for a
    constant value prediction has the closed form
    [(1 - gamma*lambda) * advantage[step]
     = delta * (1 - (gamma*lambda)^(n-step))]. *)
Theorem gae_backward_recursion :
  exists est,
    _add_vtarg_and_adv uninit pi seg gamma lam ignore_dones = Ok est /\
    (forall step o o' r d,
       observations seg !! step = Some o ->
       next_observations seg !! step = Some o' ->
       rewards seg !! step = Some r ->
       dones seg !! step = Some d ->
       let vpred := value pi o in
       let next_vpred := value pi o' in
       let notdone := if ignore_dones then 1 else 1 - b2r d in
       let delta := r + gamma * notdone * next_vpred - vpred in
       let running_advantage := default 0 (adv est !! S step) in
       adv est !! step
       = Some (delta + gamma * lam * (1 - b2r d) * running_advantage)) /\
    (Forall (eq false) (dones seg) ->
     forall step, (step < length (rewards seg))%nat ->
       adv est !! step
       = Some (discounted_sum gamma lam
                 (drop step
                    (td_errors pi gamma ignore_dones (observations seg)
                       (next_observations seg) (rewards seg) (dones seg))))) /\
    (forall r0 v,
       Forall (eq r0) (rewards seg) -> Forall (eq false) (dones seg) ->
       Forall (fun o => value pi o = v) (observations seg) ->
       Forall (fun o => value pi o = v) (next_observations seg) ->
       forall step, (step < length (rewards seg))%nat ->
       exists a,
         adv est !! step = Some a /\
         (1 - gamma * lam) * a
         = (r0 + gamma * v - v)
           * (1 - (gamma * lam) ^ (length (rewards seg) - step))).
Proof.
  eexists. split; [apply add_vtarg_and_adv_ref|]. simpl.
  assert (HG : length G = length (rewards seg)) by by apply gae_ref_length.
  split; [|split].
  - intros step o o' r d Ho Ho' Hr Hd.
    apply (gae_ref_step _ _ _ _ _ _ _ _ _ Ho Ho' Hr Hd).
  - intros Hd step Hstep. apply gae_ref_discounted; [done | lia].
  - intros r0 v Hr Hd Hv Hv' step Hstep.
    eexists. split.
    + apply gae_ref_discounted; [done | lia].
    + rewrite (td_errors_constant _ _ _ _ r0 v) by done.
      rewrite drop_replicate. apply discounted_sum_constant.
Qed.

End Loop.

End AdvantageFacts.

Lemma gae_backward_recursion_witness :
  length (observations three_steps) = length (rewards three_steps) /\
  length (next_observations three_steps) = length (rewards three_steps) /\
  length (dones three_steps) = length (rewards three_steps) /\
  exists est,
    _add_vtarg_and_adv (fun _ => 7) tt three_steps (9 / 10) (1 / 2) false
    = Ok est /\
    exists a, adv est !! 0%nat = Some a /\ a = 5949 / 4000.
Proof.
  split; [reflexivity|]. split; [reflexivity|]. split; [reflexivity|].
  destruct (gae_backward_recursion (fun _ => 7) tt (9 / 10) (1 / 2) false
              three_steps eq_refl eq_refl eq_refl)
    as (est & Hrun & _ & _ & Hclosed).
  exists est. split; [exact Hrun|].
  destruct (Hclosed 1 1) with (step := 0%nat) as (a & Ha & Hgeo).
  - repeat constructor.
  - repeat constructor.
  - repeat constructor.
  - repeat constructor.
  - simpl. lia.
  - exists a. split; [exact Ha|]. simpl in Hgeo. lra.
Defined.

(** The hand-computed trajectory: three steps of reward [1], value
    prediction [1], [gamma = 0.9] and [lambda = 0.5], so [delta = 0.9] and
    the advantages are [0.9], [0.9 + 0.45 * 0.9] and
    [0.9 + 0.45 * 1.305], from the last step to the first. *)
Example gae_three_steps :
  _add_vtarg_and_adv (fun _ => 7) tt three_steps (9 / 10) (1 / 2) false
  = Ok (mk_estimates [5949 / 4000; 261 / 200; 9 / 10] [1; 1; 1]
          [9949 / 4000; 461 / 200; 19 / 10]).
Proof.
  unfold _add_vtarg_and_adv. cbn.
  f_equal. f_equal; repeat (f_equal; try lra).
Qed.

(** C6: with [ignore_dones] set, [notdone] is [1] in the delta term of every
    step, while the decay term of [advantage[step]] still multiplies by
    [1 - done[step]]; with the flag unset both terms use the done mask. *)
Theorem ignore_dones_only_in_delta {P Obs : Type} `{!PolicyModel P Obs}
    (uninit : nat -> R) (pi : P) (gamma lam : R) (seg : segment Obs) :
  length (observations seg) = length (rewards seg) ->
  length (next_observations seg) = length (rewards seg) ->
  length (dones seg) = length (rewards seg) ->
  (exists est,
     _add_vtarg_and_adv uninit pi seg gamma lam true = Ok est /\
     forall step o o' r d,
       observations seg !! step = Some o ->
       next_observations seg !! step = Some o' ->
       rewards seg !! step = Some r ->
       dones seg !! step = Some d ->
       let delta := r + gamma * 1 * value pi o' - value pi o in
       adv est !! step
       = Some (delta + gamma * lam * (1 - b2r d)
                       * default 0 (adv est !! S step))) /\
  (exists est,
     _add_vtarg_and_adv uninit pi seg gamma lam false = Ok est /\
     forall step o o' r d,
       observations seg !! step = Some o ->
       next_observations seg !! step = Some o' ->
       rewards seg !! step = Some r ->
       dones seg !! step = Some d ->
       let delta := r + gamma * (1 - b2r d) * value pi o' - value pi o in
       adv est !! step
       = Some (delta + gamma * lam * (1 - b2r d)
                       * default 0 (adv est !! S step))).
Proof.
  intros Hobs Hnext Hdones. split.
  - eexists. split; [by apply add_vtarg_and_adv_ref|]. simpl.
    intros step o o' r d Ho Ho' Hr Hd.
    apply (gae_ref_step pi gamma lam true _ _ _ _ _ _ _ _ _ Ho Ho' Hr Hd).
  - eexists. split; [by apply add_vtarg_and_adv_ref|]. simpl.
    intros step o o' r d Ho Ho' Hr Hd.
    apply (gae_ref_step pi gamma lam false _ _ _ _ _ _ _ _ _ Ho Ho' Hr Hd).
Qed.

Lemma ignore_dones_only_in_delta_witness :
  length (observations terminal_then_step) = length (rewards terminal_then_step) /\
  length (next_observations terminal_then_step)
  = length (rewards terminal_then_step) /\
  length (dones terminal_then_step) = length (rewards terminal_then_step) /\
  (exists est,
     _add_vtarg_and_adv (fun _ => 7) tt terminal_then_step (1 / 2) (1 / 2) true
     = Ok est /\ adv est !! 0%nat = Some (1 / 2)) /\
  (exists est,
     _add_vtarg_and_adv (fun _ => 7) tt terminal_then_step (1 / 2) (1 / 2) false
     = Ok est /\ adv est !! 0%nat = Some 0).
Proof.
  split; [reflexivity|]. split; [reflexivity|]. split; [reflexivity|].
  destruct (ignore_dones_only_in_delta (fun _ => 7) tt (1 / 2) (1 / 2)
              terminal_then_step eq_refl eq_refl eq_refl)
    as [(est1 & Hrun1 & Hstep1) (est0 & Hrun0 & Hstep0)].
  split.
  - exists est1. split; [exact Hrun1|].
    rewrite (Hstep1 0%nat 1%nat 1%nat 1 true) by reflexivity.
    f_equal. simpl. lra.
  - exists est0. split; [exact Hrun0|].
    rewrite (Hstep0 0%nat 1%nat 1%nat 1 true) by reflexivity.
    f_equal. simpl. lra.
Defined.

(** ** Properties of the sampler *)

Lemma Rsum_snoc (l : list R) (x : R) : Rsum (l ++ [x]) = Rsum l + x.
Proof. induction l as [|y l IH]; simpl; [lra | rewrite IH; lra]. Qed.

Lemma np_clip_returns (a lo hi : list R) :
  length a = length lo -> length lo = length hi ->
  exists c, np_clip a lo hi = Ok c.
Proof.
  revert lo hi. induction a as [|x a IH]; intros [|l lo] [|h hi]; simpl;
    intros Ha Hlo; try lia.
  - by eexists.
  - destruct (IH lo hi) as [c Hc]; [lia | lia |]. rewrite Hc. simpl. by eexists.
Qed.

Lemma clip1_within (x lo hi : R) : lo <= hi -> lo <= clip1 x lo hi <= hi.
Proof.
  intros Hle. unfold clip1, Rmin, Rmax.
  destruct (Rle_dec x lo); destruct (Rle_dec hi _); lra.
Qed.

Lemma clip1_inside (x lo hi : R) : lo <= x <= hi -> clip1 x lo hi = x.
Proof.
  intros Hle. unfold clip1, Rmin, Rmax.
  destruct (Rle_dec x lo); destruct (Rle_dec hi _); lra.
Qed.

(** What [np_clip] returns is the elementwise clip, and lies within the
    bounds when they are ordered. *)
Lemma np_clip_elementwise (a lo hi c : list R) :
  np_clip a lo hi = Ok c ->
  c = zip_with (fun x b => clip1 x b.1 b.2) a (zip lo hi) /\
  (Forall2 Rle lo hi -> Forall2 Rle lo c /\ Forall2 Rle c hi).
Proof.
  revert lo hi c. induction a as [|x a IH]; intros [|l lo] [|h hi] c; simpl;
    intros Hc; try discriminate.
  - simplify_eq. split; [done|]. intros _. split; constructor.
  - destruct (np_clip a lo hi) as [c'| |] eqn:Hc'; try discriminate.
    simpl in Hc. simplify_eq.
    destruct (IH lo hi c' Hc') as [-> Hbounds].
    split; [done|]. intros Hle. apply Forall2_cons in Hle as [Hlh Hle].
    destruct (Hbounds Hle). split; constructor; try done;
      apply clip1_within; done.
Qed.

Section SamplerFacts.
Context {E P Obs : Type} `{!Environment E Obs} `{!PolicyModel P Obs}.

#[local] Abbreviation state := (locals (E := E) (P := P) (Obs := Obs)).

(** One pass through the body, field by field. *)
Lemma collect_body_fields (st : state) :
  actions_fit E P Obs ->
  exists pi a c env o' r d st',
    compute_action (l_policy_pi st) (l_obs st) = (pi, a) /\
    match action_space E with
    | Box low high => np_clip a low high
    | _ => Ok a
    end = Ok c /\
    step (l_env st) c = (env, (o', r, d)) /\
    collect_body st = Ok st' /\
    l_policy_pi st' = pi /\
    l_observations st' = l_observations st ++ [l_obs st] /\
    l_next_observations st' = l_next_observations st ++ [o'] /\
    l_rewards st' = l_rewards st ++ [r] /\
    l_dones st' = l_dones st ++ [d] /\
    l_actions st' = l_actions st ++ [a] /\
    if d then
      (l_env st', l_obs st') = reset env /\
      l_ep_rets st' = l_ep_rets st ++ [cur_ep_ret st + r] /\
      l_ep_lens st' = l_ep_lens st ++ [(current_ep_len st + 1)%nat] /\
      cur_ep_ret st' = 0 /\ current_ep_len st' = 0%nat
    else
      l_env st' = env /\ l_obs st' = o' /\
      l_ep_rets st' = l_ep_rets st /\ l_ep_lens st' = l_ep_lens st /\
      cur_ep_ret st' = cur_ep_ret st + r /\
      current_ep_len st' = (current_ep_len st + 1)%nat.
Proof.
  intros Hfit. unfold collect_body.
  destruct (compute_action (l_policy_pi st) (l_obs st)) as [pi a] eqn:Hact.
  assert (Hclip : exists c,
             match action_space E with
             | Box low high => np_clip a low high
             | _ => Ok a
             end = Ok c).
  { unfold actions_fit in Hfit. destruct (action_space E) as [low high|k].
    - destruct Hfit as [Hlh Hlen]. apply np_clip_returns; [|done].
      specialize (Hlen (l_policy_pi st) (l_obs st)). by rewrite Hact in Hlen.
    - by eexists. }
  destruct Hclip as [c Hc]. rewrite Hc. simpl.
  destruct (step (l_env st) c) as [env [[o' r] d]] eqn:Hstep.
  destruct d.
  - destruct (reset env) as [env' o''] eqn:Hreset.
    eexists pi, a, c, env, o', r, true, _.
    repeat split; try done.
  - eexists pi, a, c, env, o', r, false, _.
    repeat split; done.
Qed.

(** The rule of the loop: an invariant that every pass keeps, while it adds
    one observation, holds when the loop ends, which it does with exactly
    [n_samples] observations. *)
Lemma collect_loop_rule (I : state -> Prop) (n_samples : Z) :
  (forall st, I st ->
     exists st', collect_body st = Ok st' /\ I st' /\
       length (l_observations st') = S (length (l_observations st))) ->
  forall fuel st,
    I st ->
    (Z.of_nat (length (l_observations st)) <= n_samples)%Z ->
    (Z.to_nat n_samples - length (l_observations st) <= fuel)%nat ->
    exists st',
      collect_loop fuel n_samples st = Ok st' /\ I st' /\
      Z.of_nat (length (l_observations st')) = n_samples.
Proof.
  intros Hbody. induction fuel as [|fuel IH]; intros st HI Hle Hfuel.
  - exists st. simpl.
    destruct (Z.ltb_spec (Z.of_nat (length (l_observations st))) n_samples);
      [lia|]. split; [done|]. split; [done | lia].
  - simpl.
    destruct (Z.ltb_spec (Z.of_nat (length (l_observations st))) n_samples).
    + destruct (Hbody st HI) as (st1 & Hst1 & HI1 & Hlen1).
      rewrite Hst1. simpl. apply IH; [done | lia | lia].
    + exists st. split; [done|]. split; [done | lia].
Qed.

Lemma episode_return_snoc (ep : list (R * bool)) (r : R) (d : bool) :
  episode_return (ep ++ [(r, d)]) = episode_return ep + r.
Proof. unfold episode_return. rewrite fmap_app. apply Rsum_snoc. Qed.

Lemma episodes_inv_body (st : state) :
  actions_fit E P Obs -> episodes_inv st ->
  exists st', collect_body st = Ok st' /\ episodes_inv st' /\
    length (l_observations st') = S (length (l_observations st)).
Proof.
  intros Hfit (Hno & Hr & Hd & Ha & eps & rest & Hzip & Heps & Hrest & Hrets
               & Hlens & Hcur & Hlen).
  destruct (collect_body_fields st Hfit)
    as (pi & a & c & env & o' & r & d & st' & _ & _ & _ & Hst' & _ & Hobs'
        & Hno' & Hr' & Hd' & Ha' & Hcase).
  exists st'. split; [done|]. split.
  - unfold episodes_inv. rewrite Hobs', Hno', Hr', Hd', Ha'.
    rewrite !length_app. simpl.
    repeat (split; [lia|]).
    rewrite zip_with_app by lia. simpl. rewrite Hzip.
    destruct d.
    + destruct Hcase as (_ & Hrets' & Hlens' & Hcur' & Hlen').
      exists (eps ++ [rest ++ [(r, true)]]), [].
      rewrite concat_app. simpl. rewrite !app_nil_r.
      split; [by rewrite app_assoc|].
      split.
      { apply Forall_app. split; [done|]. constructor; [|constructor].
        by exists rest, r. }
      split; [constructor|].
      rewrite Hrets', Hlens', Hcur', Hlen', !fmap_app. simpl.
      rewrite episode_return_snoc, length_app, Hrets, Hlens, Hcur, Hlen.
      done.
    + destruct Hcase as (_ & _ & Hrets' & Hlens' & Hcur' & Hlen').
      exists eps, (rest ++ [(r, false)]).
      split; [by rewrite app_assoc|].
      split; [done|].
      split; [apply Forall_app; split; [done|]; by constructor|].
      rewrite Hrets', Hlens', Hcur', Hlen', episode_return_snoc, length_app.
      rewrite Hcur, Hlen. done.
  - rewrite Hobs', length_app. simpl. lia.
Qed.

Lemma trajectory_app (env : E) (pi : P) (obs : Obs)
    (steps1 steps2 : list (timestep Obs))
    (env1 : E) (pi1 : P) (obs1 : Obs) (env2 : E) (pi2 : P) (obs2 : Obs) :
  trajectory env pi obs steps1 env1 pi1 obs1 ->
  trajectory env1 pi1 obs1 steps2 env2 pi2 obs2 ->
  trajectory env pi obs (steps1 ++ steps2) env2 pi2 obs2.
Proof.
  revert env pi obs.
  induction steps1 as [|s steps1 IH]; intros env pi obs; simpl.
  - by intros (-> & -> & ->).
  - intros (Hobs & pi' & c & e1 & e2 & o2 & Hact & Hclip & Hstep & Hnext & Hrest)
           Hsteps2.
    split; [done|]. exists pi', c, e1, e2, o2.
    repeat (split; [done|]). by apply IH.
Qed.

(** Every pass adds one transition of the environment to the trajectory. *)
Lemma trajectory_inv_body (env0 : E) (pi0 : P) (obs0 : Obs) (st : state) :
  actions_fit E P Obs -> trajectory_inv env0 pi0 obs0 st ->
  exists st', collect_body st = Ok st' /\ trajectory_inv env0 pi0 obs0 st'.
Proof.
  intros Hfit (steps & Htraj & Hobs & Hacts & Hnext & Hrews & Hdones).
  destruct (collect_body_fields st Hfit)
    as (pi & a & c & env & o' & r & d & st' & Hact & Hclip & Hstep & Hst' & Hpi
        & Hobs' & Hno' & Hr' & Hd' & Ha' & Hcase).
  exists st'. split; [done|].
  exists (steps ++ [mk_timestep (l_obs st) a o' r d]).
  rewrite !fmap_app. simpl.
  rewrite Hobs', Hno', Hr', Hd', Ha', Hobs, Hacts, Hnext, Hrews, Hdones.
  split; [|done].
  eapply trajectory_app; [exact Htraj|].
  simpl. split; [done|].
  exists pi, c, env, (l_env st'), (l_obs st').
  split; [done|]. split; [done|]. split; [done|].
  split.
  - destruct d.
    + by destruct Hcase as [<- _].
    + by destruct Hcase as (-> & -> & _).
  - by rewrite Hpi.
Qed.

(** C5: for every [n >= 1] (and fuel enough for [n] passes) the sampler
    returns; its five parallel arrays hold exactly [n] transitions and
    [total_timestep] is [n], wherever the episodes ended.  The steps split
    into the episodes completed within them, each ending at its only terminal
    step, followed by the steps of an episode the budget cut short, which
    contain no terminal step; [ep_rets] and [ep_lens] list the returns and
    lengths of the completed episodes and nothing for the steps after
    them.  The [n] entries are transitions of the environment: the arrays
    are the columns of a trajectory that starts at the first [reset], in
    which every step is the answer of [step] to the action [compute_action]
    gave at the recorded observation, in the state the step before left the
    environment in, with a [reset] after every terminal step and only there;
    the done flags that end the listed episodes are the ones [step]
    returned. *)
Theorem collect_samples_count_and_episodes (fuel : nat) (n : Z) (env : E) (pi : P) :
  (1 <= n)%Z ->
  (Z.to_nat n <= fuel)%nat ->
  actions_fit E P Obs ->
  exists seg env' pi',
    _collect_samples fuel n env pi = Ok (seg, env', pi') /\
    Z.of_nat (length (observations seg)) = n /\
    Z.of_nat (length (next_observations seg)) = n /\
    Z.of_nat (length (rewards seg)) = n /\
    Z.of_nat (length (dones seg)) = n /\
    Z.of_nat (length (actions seg)) = n /\
    Z.of_nat (total_timestep seg) = n /\
    (exists episodes rest,
       zip (rewards seg) (dones seg) = concat episodes ++ rest /\
       Forall complete_episode episodes /\
       Forall (fun s => s.2 = false) rest /\
       ep_rets seg = episode_return <$> episodes /\
       ep_lens seg = length <$> episodes) /\
    exists steps obs',
      trajectory (reset env).1 pi (reset env).2 steps env' pi' obs' /\
      Z.of_nat (length steps) = n /\
      observations seg = ts_obs <$> steps /\
      actions seg = ts_action <$> steps /\
      next_observations seg = ts_next_obs <$> steps /\
      rewards seg = ts_reward <$> steps /\
      dones seg = ts_done <$> steps.
Proof.
  intros Hn Hfuel Hfit. unfold _collect_samples.
  destruct (reset env) as [env0 obs0]. simpl.
  destruct (collect_loop_rule
              (fun st => episodes_inv st /\ trajectory_inv env0 pi obs0 st) n)
    with (fuel := fuel)
         (st := mk_locals env0 pi obs0 [] [] [] [] [] 0 0 [] [])
    as (st & Hrun & (HI & Htraj) & Hlen).
  - intros st (Hep & Htraj).
    destruct (episodes_inv_body st Hfit Hep) as (st1 & Hst1 & Hep1 & Hlen1).
    destruct (trajectory_inv_body env0 pi obs0 st Hfit Htraj)
      as (st2 & Hst2 & Htraj2).
    exists st1. rewrite Hst1 in Hst2. by simplify_eq.
  - split.
    + unfold episodes_inv. simpl. repeat (split; [done|]).
      exists [], []. repeat split; done.
    + by exists [].
  - simpl. lia.
  - simpl. lia.
  - rewrite Hrun. simpl.
    destruct HI as (Hno & Hr & Hd & Ha & eps & rest & Hzip & Heps & Hrest
                    & Hrets & Hlens & _ & _).
    destruct Htraj as (steps & Htraj & Hobs & Hacts & Hnext & Hrews & Hdones).
    eexists _, _, _. split; [done|]. simpl.
    rewrite Hno, Hr, Hd, Ha.
    repeat (split; [done|]).
    split; [by exists eps, rest|].
    exists steps, (l_obs st). split; [done|].
    split; [|done].
    by rewrite <- Hlen, Hobs, length_fmap.
Qed.

Lemma policy_run_snoc (pi0 : P) (os : list Obs) (o : Obs) :
  policy_run pi0 (os ++ [o])
  = let '(pi, acts) := policy_run pi0 os in
    let '(pi', a) := compute_action pi o in
    (pi', acts ++ [a]).
Proof.
  revert pi0. induction os as [|o1 os IH]; intros pi0; simpl.
  - by destruct (compute_action pi0 o).
  - destruct (compute_action pi0 o1) as [pi1 a1]. rewrite IH.
    destruct (policy_run pi1 os) as [pi2 acts].
    by destruct (compute_action pi2 o).
Qed.

Lemma actions_inv_body (pi0 : P) (st : state) :
  actions_fit E P Obs -> actions_inv pi0 st ->
  exists st', collect_body st = Ok st' /\ actions_inv pi0 st'.
Proof.
  intros Hfit Hinv.
  destruct (collect_body_fields st Hfit)
    as (pi & a & c & env & o' & r & d & st' & Hact & _ & _ & Hst' & Hpi & Hobs'
        & _ & _ & _ & Ha' & _).
  exists st'. split; [done|].
  unfold actions_inv in *. rewrite Hobs', policy_run_snoc, Hinv, Hact.
  by rewrite Hpi, Ha'.
Qed.

End SamplerFacts.

Section RecordingFacts.
Context {E P Obs : Type} `{!Environment E Obs} `{!PolicyModel P Obs}.

#[local] Abbreviation rstate :=
  (locals (E := E * list (list R)) (P := P) (Obs := Obs)).

Lemma actions_fit_recording :
  actions_fit E P Obs -> actions_fit (E * list (list R)) P Obs.
Proof. done. Qed.

Lemma log_inv_body (low high : list R) (st : rstate) :
  action_space E = Box low high ->
  actions_fit E P Obs -> log_inv low high st ->
  exists st', collect_body st = Ok st' /\ log_inv low high st'.
Proof.
  intros Hbox Hfit Hinv.
  destruct (collect_body_fields st (actions_fit_recording Hfit))
    as (pi & a & c & env & o' & r & d & st' & _ & Hclip & Hstep & Hst' & _ & _
        & _ & _ & _ & Ha' & Hcase).
  exists st'. split; [done|].
  change (action_space (E * list (list R))) with (action_space E) in Hclip.
  rewrite Hbox in Hclip.
  assert (Hlog : env.2 = (l_env st).2 ++ [c]).
  { simpl in Hstep. destruct (step (l_env st).1 c) as [e res].
    by simplify_eq. }
  assert (Hlog' : (l_env st').2 = env.2).
  { destruct d.
    - destruct Hcase as [Hreset _]. simpl in Hreset.
      destruct (reset env.1) as [e o].
      injection Hreset as Henv _. by rewrite Henv.
    - destruct Hcase as [-> _]. done. }
  unfold log_inv. rewrite Ha', Hlog', Hlog.
  apply Forall2_app; [done|]. by constructor.
Qed.

(** Recording changes nothing: a pass over the recording environment is the
    pass over the wrapped one. *)
Lemma collect_body_erase (st : rstate) :
  collect_body (erase st)
  = match collect_body st with
    | Ok st' => Ok (erase st')
    | Raised e => Raised e
    | OutOfFuel => OutOfFuel
    end.
Proof.
  unfold collect_body. simpl.
  destruct (compute_action (l_policy_pi st) (l_obs st)) as [pi a].
  change (action_space (E * list (list R))) with (action_space E).
  destruct (match action_space E with
            | Box low high => np_clip a low high
            | Discrete _ => Ok a
            end) as [c| |]; simpl; try done.
  destruct (step (l_env st).1 c) as [env [[o' r] d]].
  destruct d; simpl; [|done].
  by destruct (reset env).
Qed.

Lemma collect_loop_erase (fuel : nat) (n : Z) (st : rstate) :
  collect_loop fuel n (erase st)
  = match collect_loop fuel n st with
    | Ok st' => Ok (erase st')
    | Raised e => Raised e
    | OutOfFuel => OutOfFuel
    end.
Proof.
  revert st. induction fuel as [|fuel IH]; intros st; simpl.
  - by destruct (_ <? _)%Z.
  - destruct (_ <? _)%Z; [|done].
    rewrite collect_body_erase.
    destruct (collect_body st) as [st'| |]; simpl; [apply IH | done | done].
Qed.

Lemma collect_samples_recording (fuel : nat) (n : Z) (env : E)
    (log0 : list (list R)) (pi : P) :
  _collect_samples fuel n env pi
  = match _collect_samples fuel n (env, log0) pi with
    | Ok (seg, (env', _), pi') => Ok (seg, env', pi')
    | Raised e => Raised e
    | OutOfFuel => OutOfFuel
    end.
Proof.
  unfold _collect_samples. simpl.
  destruct (reset env) as [env0 obs0].
  change (mk_locals env0 pi obs0 [] [] [] [] [] 0 0 [] [])
    with (erase (mk_locals (E := E * list (list R)) (env0, log0) pi obs0
                           [] [] [] [] [] 0 0 [] [])).
  rewrite collect_loop_erase.
  destruct (collect_loop fuel n _) as [st| |]; simpl; try done.
  by destruct (l_env st).
Qed.

(** C10: over a [Box] action space, the actions the environment is stepped
    with are, step for step, the recorded actions clipped elementwise
    ([minimum(high, maximum(action, low))], within [[low, high]] when the
    bounds are ordered), while the actions recorded in the segment are what
    the policy returned for the recorded observations, unclipped.  This is
    so at every collected step: the environment is stepped [n] times and
    the segment records [n] actions. *)
Theorem env_stepped_clipped_segment_unclipped
    (fuel : nat) (n : Z) (env : E) (pi : P) (low high : list R) :
  action_space E = Box low high ->
  (0 <= n)%Z ->
  (Z.to_nat n <= fuel)%nat ->
  actions_fit E P Obs ->
  exists seg env' log pi',
    _collect_samples fuel n (env, []) pi = Ok (seg, (env', log), pi') /\
    actions seg = (policy_run pi (observations seg)).2 /\
    Forall2
      (fun a c =>
         np_clip a low high = Ok c /\
         c = zip_with (fun x b => clip1 x b.1 b.2) a (zip low high) /\
         (Forall2 Rle low high -> Forall2 Rle low c /\ Forall2 Rle c high))
      (actions seg) log /\
    length (actions seg) = Z.to_nat n /\
    length log = Z.to_nat n.
Proof.
  intros Hbox Hn Hfuel Hfit. unfold _collect_samples. simpl.
  destruct (reset env) as [env0 obs0].
  destruct (collect_loop_rule
              (fun st => episodes_inv st /\ actions_inv pi st
                         /\ log_inv low high st) n)
    with (fuel := fuel)
         (st := mk_locals (E := E * list (list R)) (env0, []) pi obs0
                          [] [] [] [] [] 0 0 [] [])
    as (st & Hrun & (Hep & Hacts & Hlog) & Hlen).
  - intros st (Hep & Hacts & Hlog).
    destruct (episodes_inv_body st (actions_fit_recording Hfit) Hep)
      as (st1 & Hst1 & Hep1 & Hlen1).
    destruct (actions_inv_body pi st (actions_fit_recording Hfit) Hacts)
      as (st2 & Hst2 & Hacts2).
    destruct (log_inv_body low high st Hbox Hfit Hlog) as (st3 & Hst3 & Hlog3).
    exists st1. rewrite Hst1 in Hst2, Hst3. simplify_eq. done.
  - split; [|split].
    + unfold episodes_inv. simpl. repeat (split; [done|]).
      exists [], []. repeat split; done.
    + done.
    + constructor.
  - simpl. lia.
  - simpl. lia.
  - rewrite Hrun. simpl. destruct (l_env st) as [env' log] eqn:Henv.
    eexists _, env', log, _. split; [done|]. simpl.
    assert (Hcount : length (l_actions st) = Z.to_nat n).
    { destruct Hep as (_ & _ & _ & Ha & _). lia. }
    unfold log_inv in Hlog. rewrite Henv in Hlog. simpl in Hlog.
    split; [|split; [|split]].
    + unfold actions_inv in Hacts. by rewrite Hacts.
    + eapply Forall2_impl; [exact Hlog|].
      intros a c Hc. split; [done|]. by apply np_clip_elementwise.
    + exact Hcount.
    + by rewrite <- (Forall2_length _ _ _ Hlog).
Qed.

End RecordingFacts.

Lemma actions_fit_counting : actions_fit nat unit nat.
Proof. split; [reflexivity | intros; reflexivity]. Qed.

Lemma collect_samples_count_and_episodes_witness :
  (1 <= 4)%Z /\ (Z.to_nat 4 <= 4)%nat /\ actions_fit nat unit nat /\
  exists seg env' pi',
    _collect_samples 4 4 0%nat tt = Ok (seg, env', pi') /\
    Z.of_nat (total_timestep seg) = 4%Z /\
    (exists episodes rest,
       zip (rewards seg) (dones seg) = concat episodes ++ rest /\
       ep_lens seg = length <$> episodes) /\
    exists steps obs',
      trajectory (reset 0%nat).1 tt (reset 0%nat).2 steps env' pi' obs' /\
      Z.of_nat (length steps) = 4%Z /\
      dones seg = ts_done <$> steps.
Proof.
  split; [lia|]. split; [simpl; lia|]. split; [exact actions_fit_counting|].
  destruct (collect_samples_count_and_episodes 4 4 0%nat tt)
    as (seg & env' & pi' & Hrun & _ & _ & _ & _ & _ & Htotal
        & (eps & rest & Hzip & _ & _ & _ & Hlens)
        & steps & obs' & Htraj & Hcount & _ & _ & _ & _ & Hdones).
  - lia.
  - simpl. lia.
  - exact actions_fit_counting.
  - exists seg, env', pi'. split; [exact Hrun|]. split; [exact Htotal|].
    split.
    + exists eps, rest. split; [exact Hzip | exact Hlens].
    + exists steps, obs'. split; [exact Htraj|].
      split; [exact Hcount | exact Hdones].
Defined.

(** Four samples from the counting environment: the episode that ends at the
    third step is listed, the step after it belongs to an episode the budget
    cuts short and is not. *)
Example collect_four_samples :
  _collect_samples 4 4 0%nat tt
  = Ok (mk_segment [0; 1; 2; 0]%nat [1; 2; 3; 1]%nat [1; 1; 1; 1]
                   [false; false; true; false] [[2]; [2]; [2]; [2]]
                   [3] [3%nat] 4,
        1%nat, tt).
Proof.
  unfold _collect_samples. simpl.
  f_equal. f_equal. f_equal. f_equal. f_equal. f_equal. lra.
Qed.

Lemma env_stepped_clipped_segment_unclipped_witness :
  action_space nat = Box [-1] [1] /\ (0 <= 2)%Z /\ (Z.to_nat 2 <= 2)%nat /\
  actions_fit nat unit nat /\
  exists seg env' log pi',
    _collect_samples 2 2 (0%nat, []) tt = Ok (seg, (env', log), pi') /\
    actions seg = (policy_run tt (observations seg)).2 /\
    Forall2 (fun a c => np_clip a [-1] [1] = Ok c) (actions seg) log /\
    length log = Z.to_nat 2.
Proof.
  split; [reflexivity|]. split; [lia|]. split; [simpl; lia|].
  split; [exact actions_fit_counting|].
  destruct (env_stepped_clipped_segment_unclipped 2 2 0%nat tt [-1] [1])
    as (seg & env' & log & pi' & Hrun & Hacts & Hlog & _ & Hcalls).
  - reflexivity.
  - lia.
  - simpl. lia.
  - exact actions_fit_counting.
  - exists seg, env', log, pi'. split; [exact Hrun|]. split; [exact Hacts|].
    split; [|exact Hcalls].
    eapply Forall2_impl; [exact Hlog|]. intros a c [Hc _]. exact Hc.
Defined.

(** The policy asks for [[2]] in a space bounded by [[-1, 1]]: the environment
    is stepped with [[1]], the segment records [[2]]. *)
Example stepped_with_one_recorded_two :
  _collect_samples 2 2 (0%nat, []) tt
  = Ok (mk_segment [0; 1]%nat [1; 2]%nat [1; 1] [false; false] [[2]; [2]]
                   [] [] 2,
        (2%nat, [[1]; [1]]), tt).
Proof.
  unfold _collect_samples. simpl.
  assert (Hclip : clip1 2 (-1) 1 = 1).
  { unfold clip1, Rmin, Rmax.
    destruct (Rle_dec 2 (-1)); destruct (Rle_dec 1 _); lra. }
  rewrite Hclip. reflexivity.
Qed.

(** ** Properties of the logging step *)

(** C9: when the segment lists no completed episode (and the clock has moved
    since the start, so that the throughput can be computed), the logging
    step returns; it records [0] for the maximum and the minimum return, but
    the mean return it records is [np.mean] of an empty list, [nan], not
    [0]. *)
Theorem log_training_no_episodes {Obs : Type}
    (explained_variance : list R -> list R -> npfloat) (self : algorithm)
    (t_start now1 now2 : R) (observations next_observations : list Obs)
    (rewards : list R) (dones : list bool) (actions : list (list R))
    (total_timestep : nat) (mean_losses vpredbefore tdlamret : list R) :
  now2 <> t_start ->
  exists self' st,
    _log_training explained_variance self t_start now1 now2
      (mk_segment observations next_observations rewards dones actions [] []
                  total_timestep)
      mean_losses vpredbefore tdlamret
    = Ok (self', st) /\
    max_return st = 0 /\ min_return st = 0 /\
    mean_return st = NaN /\ mean_return st <> Finite 0.
Proof.
  intros Hclock. unfold _log_training, py_div. simpl.
  destruct (Req_dec_T (now2 - t_start) 0) as [Hz|Hnz]; [lra|].
  simpl. eexists _, _. split; [reflexivity|]. simpl.
  repeat split; done.
Qed.

Lemma log_training_no_episodes_witness :
  1 <> 0 /\
  exists self' st,
    _log_training (fun _ _ => NaN) fresh_algorithm 0 1 1 no_episode_segment
      [] [] []
    = Ok (self', st) /\
    mean_return st = NaN.
Proof.
  split; [lra|].
  destruct (log_training_no_episodes (fun _ _ => NaN) fresh_algorithm 0 1 1
              [0; 1]%nat [1; 2]%nat [1; 1] [false; false] [[2]; [2]] 2
              [] [] [])
    as (self' & st & Hrun & _ & _ & Hmean & _).
  - lra.
  - exists self', st. split; [exact Hrun | exact Hmean].
Defined.

(** With a completed episode the three statistics are numbers. *)
Example log_training_one_episode :
  exists self' st,
    _log_training (fun _ _ => NaN) fresh_algorithm 0 1 1 terminal_then_step
      [] [] []
    = Ok (self', st) /\
    max_return st = 1 /\ min_return st = 1 /\ mean_return st = Finite (1 / 1).
Proof.
  unfold _log_training, py_div. simpl.
  destruct (Req_dec_T (1 - 0) 0) as [Hz|Hnz]; [lra|].
  simpl. eexists _, _. split; [reflexivity|]. simpl.
  repeat split. f_equal. lra.
Qed.

(** ** Properties of the SAC graph *)

Lemma tanh_lt_1 (x : R) : tanh x < 1.
Proof.
  unfold tanh, sinh, cosh.
  assert (Hp : 0 < exp x) by apply exp_pos.
  assert (Hm : 0 < exp (- x)) by apply exp_pos.
  apply Rmult_lt_reg_r with ((exp x + exp (- x)) / 2); [lra|].
  unfold Rdiv at 1. rewrite Rmult_assoc, Rinv_l by lra. lra.
Qed.

Lemma tanh_pos (x : R) : 0 < x -> 0 < tanh x.
Proof.
  intros Hx. unfold tanh, sinh, cosh.
  assert (Hp : 0 < exp (- x)) by apply exp_pos.
  assert (Hlt : exp (- x) < exp x) by (apply exp_increasing; lra).
  apply Rdiv_lt_0_compat; lra.
Qed.

Lemma default_eps_pos : 0 < default_eps.
Proof. unfold default_eps. lra. Qed.

Lemma sample_hidden_layers {T : Type} `{!TFNum T} (act : T -> T) vs
    (x : list (list T)) :
  hidden_layers sample_policy act sample_layer vs x = x.
Proof. reflexivity. Qed.

Lemma log_std_clip_0 : Rmax (Rmin 0 LOG_STD_MAX) LOG_STD_MIN = 0.
Proof.
  unfold LOG_STD_MAX, LOG_STD_MIN, Rmax, Rmin.
  destruct (Rle_dec 0 2); [|lra]. destruct (Rle_dec 0 (-20)); lra.
Qed.

(** The sample actor: mean [1], log standard deviation [0] and noise [0], so
    the pre-squash value is [1] and the action is [tanh 1]; the Gaussian term
    of its log-probability is taken at [tanh 1]. *)
Lemma sample_actor (o : R) :
  make_actor sample_policy (fun x : R => x) sample_layer
             sample_remove_fingerprint ["model"] [[o]] [0]
  = ([[tanh 1]],
     [[- (1 / 2)
       * ((tanh 1 - 1) / (1 + default_eps) * ((tanh 1 - 1) / (1 + default_eps))
          + ln (2 * PI))
       - ln (1 - tanh 1 * tanh 1 + default_eps)]]).
Proof.
  unfold make_actor. rewrite sample_hidden_layers.
  cbn. rewrite log_std_clip_0, exp_0.
  replace (1 + 1 * 0) with 1 by ring.
  replace ((1 - -1) / 2 * tanh 1 + (1 + -1) / 2) with (tanh 1) by lra.
  replace ((tanh 1 - (1 + -1) / 2) / ((1 - -1) / 2)) with (tanh 1) by lra.
  f_equal. f_equal. f_equal. lra.
Qed.

(** Row by row, for every input: with [n] the normalized squashed action of
    the row, the Gaussian term of the log-probability is taken at [n]. *)
Lemma compute_log_pis_row (self : FeedForwardPolicy)
    (policy pi_mean pi_logstd : list (list R)) (eps : R) (i : nat)
    (p m s : list R) :
  policy !! i = Some p -> pi_mean !! i = Some m -> pi_logstd !! i = Some s ->
  let n := zip_with Rdiv (zip_with Rminus p (ac_means self)) (ac_magnitudes self) in
  _compute_log_pis self policy pi_mean pi_logstd eps !! i
  = Some
      [sum_list
         ((fun x => -0.5 * x)
          <$> ((fun x => x + ln (2 * PI))
               <$> zip_with Rplus
                     (tf_square
                      <$> zip_with Rdiv (zip_with Rminus n m)
                            ((fun z => exp z + eps) <$> s))
                     ((fun z => 2 * z) <$> s)))
       - sum_list ((fun a => ln (1 - tf_square a + eps)) <$> n)].
Proof.
  intros Hp Hm Hs n. unfold _compute_log_pis, expand_dims, reduce_sum_axis1.
  unfold elementwise, elementwise2, broadcast_rows.
  rewrite list_lookup_fmap, lookup_zip_with.
  rewrite !list_lookup_fmap, lookup_zip_with, !list_lookup_fmap.
  rewrite lookup_zip_with, lookup_zip_with, !list_lookup_fmap.
  rewrite Hp, Hm, Hs. reflexivity.
Qed.

(** What the design document asks for at the same input: the pre-squash
    value equals the mean, so the Gaussian term is at its peak, with or
    without a guard on the standard deviation. *)
Lemma sample_squashed_log_prob (guard : R) :
  squashed_log_prob [-1] [1] guard [1 + exp 0 * 0] [1] [0] [tanh 1] default_eps
  = - (1 / 2) * ln (2 * PI) - ln (1 - tanh 1 * tanh 1 + default_eps).
Proof.
  unfold squashed_log_prob, gaussian_log_density. simpl.
  rewrite exp_0.
  replace ((tanh 1 - (1 + -1) / 2) / ((1 - -1) / 2)
           * ((tanh 1 - (1 + -1) / 2) / ((1 - -1) / 2) * 1))
    with (tanh 1 * tanh 1) by (field; lra).
  replace (1 + 1 * 0 - 1) with 0 by lra.
  unfold Rdiv at 2. rewrite Rmult_0_l. lra.
Qed.

(** C3: at mean [1], log standard deviation [0] and noise [0] in the action
    space [[-1, 1]], the pre-squash value is [1] and the action [tanh 1].
    The log-probability the graph computes has shape [[1, 1]]; its Gaussian
    term is the density at the normalized squashed action [tanh 1] (with
    [eps] added to the standard deviation), not at the pre-squash value [1],
    so it is not the value of the closed form, whether or not the closed form
    guards the standard deviation. *)
Theorem log_pi_gaussian_term_at_squashed_action :
  exists lp,
    make_actor sample_policy (fun x : R => x) sample_layer
               sample_remove_fingerprint ["model"] [[0]] [0]
    = ([[tanh 1]], [[lp]]) /\
    lp = - (1 / 2)
         * ((tanh 1 - 1) / (exp 0 + default_eps)
            * ((tanh 1 - 1) / (exp 0 + default_eps))
            + 2 * 0 + ln (2 * PI))
         - ln (1 - tanh 1 * tanh 1 + default_eps) /\
    forall guard,
      lp <> squashed_log_prob [-1] [1] guard [1 + exp 0 * 0] [1] [0] [tanh 1]
              default_eps.
Proof.
  eexists. split; [apply sample_actor|].
  split; [rewrite exp_0; lra|]. intros guard.
  rewrite sample_squashed_log_prob.
  pose proof (tanh_lt_1 1) as Ht. pose proof default_eps_pos as He.
  assert (Hq : (tanh 1 - 1) / (1 + default_eps) < 0).
  { apply Rmult_neg_pos; [lra|]. apply Rinv_0_lt_compat. lra. }
  assert (Hqq : 0 < (tanh 1 - 1) / (1 + default_eps)
                    * ((tanh 1 - 1) / (1 + default_eps))) by nra.
  lra.
Qed.

Lemma sample_critic_tf (i : nat) :
  critic_tf sample_policy (fun x : R => x) sample_layer
            sample_remove_fingerprint sample_feed i
  = [[1]].
Proof. reflexivity. Qed.

Lemma sample_critic_with_actor_tf (i : nat) :
  critic_with_actor_tf sample_policy (fun x : R => x) sample_layer
                       sample_remove_fingerprint sample_feed [0] i
  = [[tanh 1]].
Proof.
  unfold critic_with_actor_tf, actor_tf, sample_feed. simpl obs_ph.
  change (placeholder [[0]]) with [[0]].
  rewrite sample_actor. reflexivity.
Qed.

Lemma sample_log_pi :
  log_pi sample_policy (fun x : R => x) sample_layer
         sample_remove_fingerprint sample_feed [0]
  = [[- (1 / 2)
      * ((tanh 1 - 1) / (1 + default_eps) * ((tanh 1 - 1) / (1 + default_eps))
         + ln (2 * PI))
      - ln (1 - tanh 1 * tanh 1 + default_eps)]].
Proof.
  unfold log_pi, sample_feed. simpl obs_ph.
  change (placeholder [[0]]) with [[0]].
  by rewrite sample_actor.
Qed.

Lemma sample_actor_tf :
  actor_tf sample_policy (fun x : R => x) sample_layer
           sample_remove_fingerprint sample_feed [0]
  = [[tanh 1]].
Proof.
  unfold actor_tf, sample_feed. simpl obs_ph.
  change (placeholder [[0]]) with [[0]].
  by rewrite sample_actor.
Qed.

(** C1: on the sample batch (observation [0], batch action [1]) with noise
    [0] the actor's own action is [tanh 1].  The critics that enter the actor
    loss are the ones fed with the batch action, whose value is [1], not the
    ones fed with the actor's action, whose value is [tanh 1]: the loss is
    [mean(alpha * log_pi - 1)], which is not
    [mean(alpha * log_pi - min(Q1_pi, Q2_pi))]. *)
Theorem actor_loss_critics_at_batch_action :
  action_ph sample_feed = [[1]] /\
  actor_tf sample_policy (fun x : R => x) sample_layer
           sample_remove_fingerprint sample_feed [0]
  = [[tanh 1]] /\
  (forall i,
     critic_tf sample_policy (fun x : R => x) sample_layer
               sample_remove_fingerprint sample_feed i
     = [[1]]) /\
  (forall i,
     critic_with_actor_tf sample_policy (fun x : R => x) sample_layer
                          sample_remove_fingerprint sample_feed [0] i
     = [[tanh 1]]) /\
  exists lp,
    log_pi sample_policy (fun x : R => x) sample_layer
           sample_remove_fingerprint sample_feed [0]
    = [[lp]] /\
    actor_loss sample_policy (fun x : R => x) sample_layer
               sample_remove_fingerprint 0 sample_feed [0]
    = exp 0 * lp - 1 /\
    actor_loss_own_action sample_policy (fun x : R => x) sample_layer
                          sample_remove_fingerprint 0 sample_feed [0]
    = exp 0 * lp - tanh 1 /\
    actor_loss sample_policy (fun x : R => x) sample_layer
               sample_remove_fingerprint 0 sample_feed [0]
    <> actor_loss_own_action sample_policy (fun x : R => x) sample_layer
                             sample_remove_fingerprint 0 sample_feed [0].
Proof.
  split; [reflexivity|]. split; [apply sample_actor_tf|].
  split; [apply sample_critic_tf|]. split; [apply sample_critic_with_actor_tf|].
  eexists. split; [apply sample_log_pi|].
  assert (Hcode : forall lp0,
             log_pi sample_policy (fun x : R => x) sample_layer
                    sample_remove_fingerprint sample_feed [0] = [[lp0]] ->
             actor_loss sample_policy (fun x : R => x) sample_layer
                        sample_remove_fingerprint 0 sample_feed [0]
             = exp 0 * lp0 - 1).
  { intros lp0 H0. unfold actor_loss. rewrite H0, !sample_critic_tf.
    cbn. rewrite Rmin_left by lra. lra. }
  assert (Hown : forall lp0,
             log_pi sample_policy (fun x : R => x) sample_layer
                    sample_remove_fingerprint sample_feed [0] = [[lp0]] ->
             actor_loss_own_action sample_policy (fun x : R => x) sample_layer
                                   sample_remove_fingerprint 0 sample_feed [0]
             = exp 0 * lp0 - tanh 1).
  { intros lp0 H0. unfold actor_loss_own_action.
    rewrite H0, !sample_critic_with_actor_tf.
    cbn. rewrite Rmin_left by lra. lra. }
  rewrite (Hcode _ sample_log_pi), (Hown _ sample_log_pi).
  split; [reflexivity|]. split; [reflexivity|].
  pose proof (tanh_lt_1 1). lra.
Qed.

Section CriticFacts.
Variable self : FeedForwardPolicy.
Variable act_fun : dual -> dual.
Variable _layer :
  list string -> string -> nat -> option (dual -> dual) -> bool ->
  list (list dual) -> list (list dual).
Variable _remove_fingerprint : list (list dual) -> nat -> nat -> nat -> list (list dual).
Variable log_alpha : dual.
Variable fd : feed_dict.
Variables noise noise1 : list R.

#[local] Abbreviation target :=
  (target_q self act_fun _layer _remove_fingerprint log_alpha fd noise1).
#[local] Abbreviation prediction :=
  (critic_tf self act_fun _layer _remove_fingerprint fd).

(** C4: read with values and derivatives, row [i] of the critic target has
    the value [reward + (1 - terminal) * gamma
    * (min(target_Q1', target_Q2') - alpha * log_pi')], from the target
    critics and the log-probability at the next observation, and derivative
    zero, as every entry of the target has: it is detached from the
    gradient.  The critic loss is the sum over the two critics of the
    configured loss, Huber when [use_huber] is set and mean squared error
    otherwise, between the critic's prediction on the batch and that
    target. *)
Theorem critic_target_and_loss (i : nat) (r t : R) (q1 q2 lp : dual) :
  rew_ph fd !! i = Some [r] ->
  terminals1 fd !! i = Some [t] ->
  critic_target self act_fun _layer _remove_fingerprint fd noise1 0 !! i
  = Some [q1] ->
  critic_target self act_fun _layer _remove_fingerprint fd noise1 1 !! i
  = Some [q2] ->
  next_log_pi self act_fun _layer _remove_fingerprint fd noise1 !! i
  = Some [lp] ->
  target !! i
  = Some [mk_dual
            (r + (1 - t) * gamma self
                 * (Rmin (val q1) (val q2) - exp (val log_alpha) * val lp))
            0] /\
  (forall row x, row ∈ target -> x ∈ row -> tangent x = 0) /\
  critic_loss self act_fun _layer _remove_fingerprint log_alpha fd noise1
  = if use_huber self then
      tf_add (huber_loss (prediction 0) target) (huber_loss (prediction 1) target)
    else
      tf_add (mean_squared_error (prediction 0) target)
             (mean_squared_error (prediction 1) target).
Proof.
  intros Hr Ht Hq1 Hq2 Hlp. split; [|split].
  - unfold target_q, q_obs1.
    set (ct0 := critic_target _ _ _ _ _ _ 0) in *.
    set (ct1 := critic_target _ _ _ _ _ _ 1) in *.
    set (nlp := next_log_pi _ _ _ _ _ _) in *.
    clearbody ct0 ct1 nlp.
    unfold elementwise, elementwise2, placeholder.
    rewrite list_lookup_fmap, lookup_zip_with.
    rewrite list_lookup_fmap, Hr. simpl.
    rewrite lookup_zip_with, !list_lookup_fmap, Ht. simpl.
    rewrite lookup_zip_with, lookup_zip_with, Hq1. simpl.
    rewrite Hq2. simpl. rewrite list_lookup_fmap, Hlp. simpl.
    f_equal. f_equal. f_equal.
    unfold Rmin. by destruct (Rle_dec (val q1) (val q2)).
  - intros row x Hrow Hx. unfold target_q, elementwise in Hrow.
    apply list_elem_of_fmap in Hrow as (row' & -> & _).
    apply list_elem_of_fmap in Hx as (x' & -> & _). reflexivity.
  - unfold critic_loss, loss_fn. by destruct (use_huber self).
Qed.

End CriticFacts.

Lemma critic_target_and_loss_witness :
  exists q1 q2 lp : dual,
    rew_ph sample_feed !! 0%nat = Some [0] /\
    terminals1 sample_feed !! 0%nat = Some [0] /\
    critic_target sample_policy (fun x : dual => x) sample_layer
                  sample_remove_fingerprint sample_feed [0] 0 !! 0%nat
    = Some [q1] /\
    critic_target sample_policy (fun x : dual => x) sample_layer
                  sample_remove_fingerprint sample_feed [0] 1 !! 0%nat
    = Some [q2] /\
    next_log_pi sample_policy (fun x : dual => x) sample_layer
                sample_remove_fingerprint sample_feed [0] !! 0%nat
    = Some [lp] /\
    target_q sample_policy (fun x : dual => x) sample_layer
             sample_remove_fingerprint (mk_dual 0 1) sample_feed [0] !! 0%nat
    = Some [mk_dual
              (0 + (1 - 0) * (99 / 100)
                   * (Rmin (val q1) (val q2) - exp 0 * val lp))
              0].
Proof.
  eexists _, _, _.
  split; [reflexivity|]. split; [reflexivity|].
  split; [reflexivity|]. split; [reflexivity|]. split; [reflexivity|].
  apply (critic_target_and_loss sample_policy (fun x : dual => x) sample_layer
           sample_remove_fingerprint (mk_dual 0 1) sample_feed [0]
           0%nat 0 0 _ _ _ eq_refl eq_refl eq_refl eq_refl eq_refl).
Defined.

(** ** Properties of the update step *)

Lemma length_omap_total {A B : Type} (f : A -> option B) (l : list A) :
  Forall (fun x => is_Some (f x)) l -> length (omap f l) = length l.
Proof.
  induction 1 as [|x l [y Hy] _ IH]; simpl; [done|].
  rewrite Hy. simpl. f_equal. exact IH.
Qed.

(** With enough transitions stored, every entry of the batch is found. *)
Lemma sample_full (rb : ReplayBuffer) (draw : nat -> nat) :
  can_sample rb = true ->
  exists obs0 actions rewards obs1 extra done1,
    sample rb draw = (obs0, actions, rewards, obs1, extra, done1) /\
    length obs0 = batch_size rb /\ length actions = batch_size rb /\
    length rewards = batch_size rb /\ length obs1 = batch_size rb /\
    length done1 = batch_size rb.
Proof.
  intros Hcan. apply bool_decide_eq_true in Hcan.
  unfold sample. eexists _, _, _, _, _, _. split; [reflexivity|].
  rewrite !length_fmap.
  assert (Hlen : length
            (omap (fun k : nat =>
                     storage rb !! (draw k mod length (storage rb))%nat)
                  (seq 0 (batch_size rb)))
          = batch_size rb).
  { rewrite length_omap_total; [apply length_seq|].
    apply Forall_forall. intros k Hk. apply elem_of_seq in Hk.
    apply lookup_lt_is_Some_2. apply Nat.mod_upper_bound. lia. }
  by rewrite Hlen.
Qed.

(** C7: when the buffer cannot sample, [update] returns the sentinel
    [(0, 0)] and leaves the policy object as it was (the session, that is
    every variable of the graph, and the buffer): nothing is run.  An update
    that changes the policy object had a buffer that can sample, and then the
    batch that is fed has [batch_size] entries in each array. *)
Theorem update_needs_full_batch {S : Type} `{!Session S}
    (self : policy_object S) (draw : nat -> nat) :
  (can_sample (replay_buffer self) = false ->
   update self draw = Ok (Value 0, Value 0, self)) /\
  (forall critic_loss actor_loss self',
     update self draw = Ok (critic_loss, actor_loss, self') ->
     self' <> self ->
     can_sample (replay_buffer self) = true) /\
  (can_sample (replay_buffer self) = true ->
   exists obs0 actions rewards obs1 extra done1,
     sample (replay_buffer self) draw
     = (obs0, actions, rewards, obs1, extra, done1) /\
     length obs0 = batch_size (replay_buffer self) /\
     length actions = batch_size (replay_buffer self) /\
     length rewards = batch_size (replay_buffer self) /\
     length obs1 = batch_size (replay_buffer self) /\
     length done1 = batch_size (replay_buffer self) /\
     update self draw = update_from_batch self obs0 actions rewards obs1 done1).
Proof.
  split; [|split].
  - intros Hcan. unfold update. by rewrite Hcan.
  - intros c a self' Hrun Hne. unfold update in Hrun.
    destruct (can_sample (replay_buffer self)); [done|].
    simpl in Hrun. by simplify_eq.
  - intros Hcan.
    destruct (sample_full (replay_buffer self) draw Hcan)
      as (obs0 & actions & rewards & obs1 & extra & done1 & Hs & H0 & H1 & H2
          & H3 & H4).
    exists obs0, actions, rewards, obs1, extra, done1.
    repeat (split; [done|]).
    unfold update. by rewrite Hcan, Hs.
Qed.

Lemma update_needs_full_batch_witness :
  can_sample short_buffer = false /\
  update (mk_object short_buffer []) (fun k => k)
  = Ok (Value 0, Value 0, mk_object short_buffer []).
Proof.
  split; [reflexivity|].
  apply (update_needs_full_batch (mk_object short_buffer []) (fun k => k)).
  reflexivity.
Defined.

(** With two transitions stored the update makes one call of [run], with the
    eight nodes of [step_ops] and a feed of two rows. *)
Example update_runs_once_when_stocked :
  update (mk_object stocked_buffer []) (fun k => k)
  = Ok (Value 0, Value 0,
        mk_object stocked_buffer
          [([critic_loss_node; actor_loss_node; alpha_loss_node;
             critic_optimizer 0; critic_optimizer 1; actor_optimizer;
             alpha_optimizer; target_soft_updates],
            Some (mk_feed [[0]; [0]] [[1]; [1]] [[0]; [0]] [[0]; [0]]
                          [[0]; [0]]))]).
Proof. reflexivity. Qed.

(** [initialize] makes one call of [run], for the hard copy. *)
Example initialize_runs_init_updates :
  initialize (mk_object short_buffer [])
  = mk_object short_buffer [([target_init_updates], None)].
Proof. reflexivity. Qed.

(** ** Further properties of the sampler *)

Section SamplerMore.
Context {E P Obs : Type} `{!Environment E Obs} `{!PolicyModel P Obs}.

#[local] Abbreviation lstate := (locals (E := E) (P := P) (Obs := Obs)).

(** The rule of [_collect_samples]: an invariant of the passes that holds
    after the first [reset] holds of the local variables the segment is built
    from. *)
Lemma collect_samples_rule (I : lstate -> Prop) (fuel : nat) (n : Z) (env : E)
    (pi : P) :
  (0 <= n)%Z -> (Z.to_nat n <= fuel)%nat ->
  (forall st, I st ->
     exists st', collect_body st = Ok st' /\ I st' /\
       length (l_observations st') = S (length (l_observations st))) ->
  I (mk_locals (reset env).1 pi (reset env).2 [] [] [] [] [] 0 0 [] []) ->
  exists st,
    _collect_samples fuel n env pi = Ok (segment_of st, l_env st, l_policy_pi st)
    /\ I st /\ Z.of_nat (length (l_observations st)) = n.
Proof.
  intros Hn Hfuel Hbody Hinit. unfold _collect_samples.
  destruct (reset env) as [env0 obs0]. simpl in Hinit.
  destruct (collect_loop_rule I n Hbody fuel _ Hinit) as (st & Hrun & HI & Hlen).
  - simpl. lia.
  - simpl. lia.
  - exists st. rewrite Hrun. done.
Qed.

Lemma episodes_inv_init (env : E) (pi : P) (obs : Obs) :
  episodes_inv (mk_locals env pi obs [] [] [] [] [] 0 0 [] []).
Proof.
  unfold episodes_inv. simpl. repeat (split; [done|]).
  exists [], []. repeat split; done.
Qed.

Lemma chain_inv_body (st : lstate) :
  actions_fit E P Obs -> episodes_inv st -> chain_inv st ->
  exists st', collect_body st = Ok st' /\ chain_inv st'.
Proof.
  intros Hfit (Hno & _ & Hd & _) Hchain.
  destruct (collect_body_fields st Hfit)
    as (pi & a & c & env & o' & r & d & st' & _ & _ & _ & Hst' & _ & Hobs'
        & Hno' & _ & Hd' & _ & Hcase).
  exists st'. split; [done|].
  intros k o1 Hk Hdk. rewrite Hobs'. rewrite Hno' in Hk. rewrite Hd' in Hdk.
  destruct (decide (k < length (l_observations st))%nat) as [Hlt|Hge].
  - rewrite lookup_app_l in Hk by lia. rewrite lookup_app_l in Hdk by lia.
    rewrite lookup_app_l by (rewrite length_app; simpl; lia).
    by apply Hchain.
  - assert (k = length (l_observations st)) as ->.
    { apply lookup_lt_Some in Hk. rewrite length_app in Hk. simpl in Hk. lia. }
    rewrite lookup_app_r in Hk by lia. rewrite lookup_app_r in Hdk by lia.
    rewrite Hno, Nat.sub_diag in Hk. rewrite Hd, Nat.sub_diag in Hdk.
    simpl in Hk, Hdk. simplify_eq.
    destruct Hcase as (_ & -> & _).
    rewrite lookup_app_r by (rewrite length_app; simpl; lia).
    rewrite length_app. simpl.
    replace (S (length (l_observations st)) - (length (l_observations st) + 1))%nat
      with 0%nat by lia.
    done.
Qed.

(** X2: within the segment, the observation recorded after a step that did
    not end an episode is the next observation of that step. *)
Theorem observations_chain (fuel : nat) (n : Z) (env : E) (pi : P) :
  (0 <= n)%Z -> (Z.to_nat n <= fuel)%nat -> actions_fit E P Obs ->
  exists seg env' pi',
    _collect_samples fuel n env pi = Ok (seg, env', pi') /\
    forall k o',
      next_observations seg !! k = Some o' ->
      dones seg !! k = Some false ->
      (S k < length (observations seg))%nat ->
      observations seg !! S k = Some o'.
Proof.
  intros Hn Hfuel Hfit.
  destruct (collect_samples_rule (fun st => episodes_inv st /\ chain_inv st)
              fuel n env pi Hn Hfuel)
    as (st & Hrun & (_ & Hchain) & _).
  - intros st (Hep & Hchain).
    destruct (episodes_inv_body st Hfit Hep) as (st1 & Hst1 & Hep1 & Hlen1).
    destruct (chain_inv_body st Hfit Hep Hchain) as (st2 & Hst2 & Hchain2).
    exists st1. rewrite Hst1 in Hst2. by simplify_eq.
  - split; [apply episodes_inv_init|]. intros k o' Hk. simpl in Hk. done.
  - eexists _, _, _. split; [exact Hrun|]. simpl.
    intros k o' Hk Hd Hlt. specialize (Hchain k o' Hk Hd).
    by rewrite lookup_app_l in Hchain by lia.
Qed.

(** X1: asked for no sample (or a negative number of them), the sampler
    resets the environment, does not step it, does not query the policy and
    returns the empty segment, whatever the fuel. *)
Theorem collect_no_samples (fuel : nat) (n : Z) (env : E) (pi : P) :
  (n <= 0)%Z ->
  _collect_samples fuel n env pi
  = Ok (mk_segment [] [] [] [] [] [] [] 0, (reset env).1, pi).
Proof.
  intros Hn. unfold _collect_samples. destruct (reset env) as [env0 obs0].
  assert (Hloop : forall st : lstate,
             l_observations st = [] -> collect_loop fuel n st = Ok st).
  { intros st Hst.
    assert (Htest : (Z.of_nat (length (l_observations st)) <? n)%Z = false).
    { rewrite Hst. apply Z.ltb_ge. simpl. lia. }
    destruct fuel; simpl; by rewrite Htest. }
  rewrite Hloop by done. done.
Qed.

End SamplerMore.

Lemma collect_no_samples_witness :
  (0 <= 0)%Z /\
  _collect_samples 0 0 (5%nat, [[7]]) tt
  = Ok (mk_segment [] [] [] [] [] [] [] 0, (0%nat, [[7]]), tt).
Proof.
  split; [lia|].
  rewrite (collect_no_samples (E := nat * list (list R)) 0 0 (5%nat, [[7]]) tt)
    by lia.
  reflexivity.
Defined.

Lemma observations_chain_witness :
  (0 <= 4)%Z /\ (Z.to_nat 4 <= 4)%nat /\ actions_fit nat unit nat /\
  exists seg env' pi',
    _collect_samples 4 4 0%nat tt = Ok (seg, env', pi') /\
    (next_observations seg !! 0%nat = Some 1%nat ->
     dones seg !! 0%nat = Some false ->
     (1 < length (observations seg))%nat ->
     observations seg !! 1%nat = Some 1%nat).
Proof.
  split; [lia|]. split; [simpl; lia|]. split; [exact actions_fit_counting|].
  destruct (observations_chain 4 4 0%nat tt) as (seg & env' & pi' & Hrun & Hchain).
  - lia.
  - simpl. lia.
  - exact actions_fit_counting.
  - exists seg, env', pi'. split; [exact Hrun|]. apply Hchain.
Defined.

Lemma np_clip_in_bounds (a lo hi c : list R) :
  np_clip a lo hi = Ok c ->
  Forall2 (fun x b => b.1 <= x <= b.2) a (zip lo hi) ->
  c = a.
Proof.
  revert lo hi c. induction a as [|x a IH]; intros [|l lo] [|h hi] c; simpl;
    intros Hc Hin; try discriminate.
  - by simplify_eq.
  - destruct (np_clip a lo hi) as [c'| |] eqn:Hc'; try discriminate.
    simpl in Hc. simplify_eq.
    apply Forall2_cons in Hin as [Hx Hin]. simpl in Hx.
    rewrite (IH lo hi c' Hc' Hin), clip1_inside by done. done.
Qed.

Lemma Rsum_app (l k : list R) : Rsum (l ++ k) = Rsum l + Rsum k.
Proof. induction l as [|x l IH]; simpl; [lra | rewrite IH; lra]. Qed.

(** The completed episodes hold one terminal step each, the steps after them
    none. *)
Lemma done_flags_of_episodes (eps : list (list (R * bool))) (rest : list (R * bool)) :
  Forall complete_episode eps -> Forall (fun s => s.2 = false) rest ->
  length (filter (fun d => d = true) ((concat eps ++ rest).*2)) = length eps.
Proof.
  intros Heps Hrest.
  assert (Hnone : forall l : list (R * bool),
             Forall (fun s => s.2 = false) l ->
             filter (fun d => d = true) l.*2 = []).
  { induction 1 as [|[r d] l Hd _ IH]; [done|].
    rewrite fmap_cons, filter_cons_False; [exact IH|]. simpl in Hd.
    simpl. by rewrite Hd. }
  rewrite fmap_app, filter_app, length_app, (Hnone rest Hrest).
  rewrite Nat.add_0_r.
  induction Heps as [|ep eps (steps & r & -> & Hsteps) _ IH]; [done|].
  rewrite concat_cons, !fmap_app, !filter_app, !length_app.
  rewrite (Hnone steps Hsteps), IH.
  rewrite fmap_cons, filter_cons_True by done. done.
Qed.

Lemma episode_returns_sum (eps : list (list (R * bool))) :
  Rsum (episode_return <$> eps) = Rsum (concat eps).*1.
Proof.
  induction eps as [|ep eps IH]; [done|].
  rewrite fmap_cons, concat_cons, fmap_app, Rsum_app, <- IH. done.
Qed.

Lemma episode_lengths_sum (eps : list (list (R * bool))) :
  foldr Nat.add 0%nat (length <$> eps) = length (concat eps).
Proof.
  induction eps as [|ep eps IH]; [done|].
  rewrite fmap_cons, concat_cons, length_app, <- IH. done.
Qed.

Section RecordingMore.
Context {E P Obs : Type} `{!Environment E Obs} `{!PolicyModel P Obs}.

#[local] Abbreviation recstate :=
  (locals (E := E * list (list R)) (P := P) (Obs := Obs)).

Lemma calls_inv_body (rel : list R -> list R -> Prop) (st : recstate) :
  actions_fit E P Obs ->
  (forall (pi : P) (o : Obs) (c : list R),
     match action_space E with
     | Box low high => np_clip (compute_action pi o).2 low high
     | _ => Ok (compute_action pi o).2
     end = Ok c ->
     rel (compute_action pi o).2 c) ->
  calls_inv rel st ->
  exists st', collect_body st = Ok st' /\ calls_inv rel st'.
Proof.
  intros Hfit Hrel Hinv.
  destruct (collect_body_fields st (actions_fit_recording Hfit))
    as (pi & a & c & env & o' & r & d & st' & Hact & Hclip & Hstep & Hst' & _
        & _ & _ & _ & _ & Ha' & Hcase).
  exists st'. split; [done|].
  change (action_space (E * list (list R))) with (action_space E) in Hclip.
  assert (Hac : rel a c).
  { specialize (Hrel (l_policy_pi st) (l_obs st) c). rewrite Hact in Hrel.
    by apply Hrel. }
  assert (Hlog : env.2 = (l_env st).2 ++ [c]).
  { simpl in Hstep. destruct (step (l_env st).1 c) as [e res].
    by simplify_eq. }
  assert (Hlog' : (l_env st').2 = env.2).
  { destruct d.
    - destruct Hcase as [Hreset _]. simpl in Hreset.
      destruct (reset env.1) as [e o].
      injection Hreset as Henv _. by rewrite Henv.
    - destruct Hcase as [-> _]. done. }
  unfold calls_inv. rewrite Ha', Hlog', Hlog.
  apply Forall2_app; [done|]. by constructor.
Qed.

(** The run over the recording environment, with an invariant of the calls. *)
Lemma recorded_calls (rel : list R -> list R -> Prop) (fuel : nat) (n : Z)
    (env : E) (pi : P) :
  (0 <= n)%Z -> (Z.to_nat n <= fuel)%nat -> actions_fit E P Obs ->
  (forall (pi : P) (o : Obs) (c : list R),
     match action_space E with
     | Box low high => np_clip (compute_action pi o).2 low high
     | _ => Ok (compute_action pi o).2
     end = Ok c ->
     rel (compute_action pi o).2 c) ->
  exists seg env' log pi',
    _collect_samples fuel n (env, []) pi = Ok (seg, (env', log), pi') /\
    Forall2 rel (actions seg) log /\
    actions seg = (policy_run pi (observations seg)).2 /\
    length (actions seg) = Z.to_nat n.
Proof.
  intros Hn Hfuel Hfit Hrel.
  destruct (collect_samples_rule
              (fun st : recstate =>
                 episodes_inv st /\ calls_inv rel st /\ actions_inv pi st)
              fuel n (env, []) pi Hn Hfuel)
    as (st & Hrun & (Hep & Hcalls & Hacts) & Hlen).
  - intros st (Hep & Hcalls & Hacts).
    destruct (episodes_inv_body st (actions_fit_recording Hfit) Hep)
      as (st1 & Hst1 & Hep1 & Hlen1).
    destruct (calls_inv_body rel st Hfit Hrel Hcalls) as (st2 & Hst2 & Hcalls2).
    destruct (actions_inv_body pi st (actions_fit_recording Hfit) Hacts)
      as (st3 & Hst3 & Hacts3).
    exists st1. rewrite Hst1 in Hst2, Hst3. by simplify_eq.
  - split; [apply episodes_inv_init|]. split; [|done].
    unfold calls_inv. simpl. destruct (reset env). simpl. constructor.
  - destruct (l_env st) as [env' log] eqn:Henv.
    exists (segment_of st), env', log, (l_policy_pi st). split; [exact Hrun|].
    unfold calls_inv in Hcalls. rewrite Henv in Hcalls.
    split; [done|]. simpl. split.
    + unfold actions_inv in Hacts. by rewrite Hacts.
    + destruct Hep as (_ & _ & _ & Ha & _). lia.
Qed.

(** X3: when the action space is not a [Box], the environment is stepped
    with the very actions the policy returned: the calls of [step] are the
    actions the segment records, which are what [compute_action] gave along
    the recorded observations, and there are [n] of them. *)
Theorem non_box_env_stepped_with_raw_actions (fuel : nat) (n : Z) (env : E)
    (pi : P) (k : nat) :
  action_space E = Discrete k ->
  (0 <= n)%Z -> (Z.to_nat n <= fuel)%nat ->
  exists seg env' log pi',
    _collect_samples fuel n (env, []) pi = Ok (seg, (env', log), pi') /\
    log = actions seg /\
    log = (policy_run pi (observations seg)).2 /\
    length log = Z.to_nat n.
Proof.
  intros Hspace Hn Hfuel.
  assert (Hfit : actions_fit E P Obs) by (unfold actions_fit; by rewrite Hspace).
  destruct (recorded_calls eq fuel n env pi Hn Hfuel Hfit)
    as (seg & env' & log & pi' & Hrun & Hcalls & Hacts & Hcount).
  - intros pi0 o c. rewrite Hspace. intros Hc. by simplify_eq.
  - assert (Hlog : log = actions seg) by (symmetry; by apply list_eq_Forall2).
    exists seg, env', log, pi'. split; [done|].
    split; [done|]. rewrite Hlog. done.
Qed.

(** X4: over a [Box] action space, when every action of the policy lies
    within the bounds, clipping changes nothing: the environment is stepped
    with the recorded actions. *)
Theorem box_env_stepped_with_actions_within_bounds (fuel : nat) (n : Z)
    (env : E) (pi : P) (low high : list R) :
  action_space E = Box low high ->
  (0 <= n)%Z -> (Z.to_nat n <= fuel)%nat ->
  length low = length high ->
  (forall (pi : P) (o : Obs),
     Forall2 (fun x b => b.1 <= x <= b.2) (compute_action pi o).2
             (zip low high)) ->
  exists seg env' log pi',
    _collect_samples fuel n (env, []) pi = Ok (seg, (env', log), pi') /\
    log = actions seg.
Proof.
  intros Hspace Hn Hfuel Hlh Hin.
  assert (Hfit : actions_fit E P Obs).
  { unfold actions_fit. rewrite Hspace. split; [done|]. intros pi0 o.
    rewrite (Forall2_length _ _ _ (Hin pi0 o)), length_zip_with. lia. }
  destruct (recorded_calls eq fuel n env pi Hn Hfuel Hfit)
    as (seg & env' & log & pi' & Hrun & Hcalls & _).
  - intros pi0 o c. rewrite Hspace. intros Hc.
    symmetry. by eapply np_clip_in_bounds.
  - exists seg, env', log, pi'. split; [done|].
    symmetry. by apply list_eq_Forall2.
Qed.

End RecordingMore.

Section EpisodeCounts.
Context {E P Obs : Type} `{!Environment E Obs} `{!PolicyModel P Obs}.

(** X5: the segment lists one return and one length per terminal step among
    its steps; every listed length is at least one; the lengths add up to
    the number of steps up to the last terminal step, which is at most the
    number of steps collected, and the returns add up to the rewards of
    those steps. *)
Theorem completed_episodes_account (fuel : nat) (n : Z) (env : E) (pi : P) :
  (0 <= n)%Z -> (Z.to_nat n <= fuel)%nat -> actions_fit E P Obs ->
  exists seg env' pi',
    _collect_samples fuel n env pi = Ok (seg, env', pi') /\
    length (ep_rets seg) = length (ep_lens seg) /\
    length (ep_lens seg) = length (filter (fun d => d = true) (dones seg)) /\
    Forall (fun len => 1 <= len)%nat (ep_lens seg) /\
    (foldr Nat.add 0 (ep_lens seg) <= total_timestep seg)%nat /\
    Rsum (ep_rets seg)
    = Rsum (take (foldr Nat.add 0%nat (ep_lens seg)) (rewards seg)).
Proof.
  intros Hn Hfuel Hfit.
  destruct (collect_samples_rule episodes_inv fuel n env pi Hn Hfuel)
    as (st & Hrun & HI & _).
  - intros st Hep. by apply episodes_inv_body.
  - apply episodes_inv_init.
  - destruct HI as (_ & Hr & Hd & _ & eps & rest & Hzip & Heps & Hrest & Hrets
                    & Hlens & _ & _).
    eexists _, _, _. split; [exact Hrun|]. simpl.
    assert (Hdones : l_dones st = (concat eps ++ rest).*2).
    { rewrite <- Hzip. symmetry. apply snd_zip. lia. }
    assert (Hrews : l_rewards st = (concat eps ++ rest).*1).
    { rewrite <- Hzip. symmetry. apply fst_zip. lia. }
    rewrite Hrets, Hlens, !length_fmap, episode_lengths_sum.
    split; [done|]. split.
    { rewrite Hdones. symmetry. by apply done_flags_of_episodes. }
    split.
    { apply Forall_fmap. eapply Forall_impl; [exact Heps|].
      intros ep (steps & r & -> & _). simpl. rewrite length_app. simpl. lia. }
    split.
    { rewrite <- Hr, Hrews, length_fmap, length_app. lia. }
    rewrite episode_returns_sum, Hrews, fmap_app.
    rewrite take_app_length' by (by rewrite length_fmap). done.
Qed.

End EpisodeCounts.

Lemma completed_episodes_account_witness :
  (0 <= 4)%Z /\ (Z.to_nat 4 <= 4)%nat /\ actions_fit nat unit nat /\
  exists seg env' pi',
    _collect_samples 4 4 0%nat tt = Ok (seg, env', pi') /\
    length (ep_lens seg) = length (filter (fun d => d = true) (dones seg)).
Proof.
  split; [lia|]. split; [simpl; lia|]. split; [exact actions_fit_counting|].
  destruct (completed_episodes_account 4 4 0%nat tt)
    as (seg & env' & pi' & Hrun & _ & Hcount & _).
  - lia.
  - simpl. lia.
  - exact actions_fit_counting.
  - exists seg, env', pi'. split; [exact Hrun | exact Hcount].
Defined.

Lemma non_box_env_stepped_with_raw_actions_witness :
  action_space Z = Discrete 3 /\ (0 <= 3)%Z /\ (Z.to_nat 3 <= 3)%nat /\
  exists seg env' log pi',
    _collect_samples 3 3 (0%Z, []) tt = Ok (seg, (env', log), pi') /\
    log = actions seg /\
    log = (policy_run tt (observations seg)).2 /\
    length log = Z.to_nat 3.
Proof.
  split; [reflexivity|]. split; [lia|]. split; [simpl; lia|].
  apply (non_box_env_stepped_with_raw_actions 3 3 0%Z tt 3).
  - reflexivity.
  - lia.
  - simpl. lia.
Defined.

Lemma tame_policy_within_bounds (pi : bool) (o : nat) :
  Forall2 (fun x b => b.1 <= x <= b.2) (compute_action pi o).2 (zip [-1] [1]).
Proof. destruct pi; repeat constructor; simpl; lra. Qed.

Lemma box_env_stepped_with_actions_within_bounds_witness :
  action_space nat = Box [-1] [1] /\ (0 <= 3)%Z /\ (Z.to_nat 3 <= 3)%nat /\
  length [-1] = length [1] /\
  exists seg env' log pi',
    _collect_samples 3 3 (0%nat, []) true = Ok (seg, (env', log), pi') /\
    log = actions seg.
Proof.
  split; [reflexivity|]. split; [lia|]. split; [simpl; lia|].
  split; [reflexivity|].
  apply (box_env_stepped_with_actions_within_bounds 3 3 0%nat true [-1] [1]).
  - reflexivity.
  - lia.
  - simpl. lia.
  - reflexivity.
  - exact tame_policy_within_bounds.
Defined.

(** ** Further properties of the advantage estimator *)

Section AdvantageMore.
Context {P Obs : Type} `{!PolicyModel P Obs}.
Variables (pi : P) (gamma lam : R).

(** X6: on a segment whose arrays go in step the estimator returns the same
    estimates whatever the fresh [np.empty] arrays held; the three arrays it
    adds have the length of the rewards, [vpred] holds the value of every
    observation and [tdlamret] is [adv + vpred] entry by entry. *)
Theorem estimates_independent_of_fresh_memory (ignore_dones : bool)
    (seg : segment Obs) :
  length (observations seg) = length (rewards seg) ->
  length (next_observations seg) = length (rewards seg) ->
  length (dones seg) = length (rewards seg) ->
  exists est,
    (forall uninit,
       _add_vtarg_and_adv uninit pi seg gamma lam ignore_dones = Ok est) /\
    length (adv est) = length (rewards seg) /\
    length (vpred est) = length (rewards seg) /\
    length (tdlamret est) = length (rewards seg) /\
    vpred est = value pi <$> observations seg /\
    forall i a v,
      adv est !! i = Some a -> vpred est !! i = Some v ->
      tdlamret est !! i = Some (a + v).
Proof.
  intros Hobs Hnext Hdones. eexists. split.
  { intros uninit. by apply add_vtarg_and_adv_ref. }
  simpl.
  assert (HG : length (gae_ref pi gamma lam ignore_dones (observations seg)
                         (next_observations seg) (rewards seg) (dones seg))
               = length (rewards seg)) by by apply gae_ref_length.
  split; [done|]. split; [by rewrite length_fmap|].
  split; [rewrite length_zip_with, length_fmap; lia|].
  split; [done|].
  intros i a v Ha Hv. rewrite lookup_zip_with, Ha. simpl. by rewrite Hv.
Qed.

(** X7: when the observations, the next observations or the done flags are
    fewer than the rewards, the estimator raises [IndexError]. *)
Theorem short_array_raises_index_error (uninit : nat -> R)
    (ignore_dones : bool) (seg : segment Obs) :
  (length (observations seg) < length (rewards seg))%nat \/
  (length (next_observations seg) < length (rewards seg))%nat \/
  (length (dones seg) < length (rewards seg))%nat ->
  _add_vtarg_and_adv uninit pi seg gamma lam ignore_dones = Raised IndexError.
Proof.
  intros Hshort. unfold _add_vtarg_and_adv.
  destruct (length (rewards seg)) as [|m] eqn:Hm; [lia|].
  replace (rev (seq 0 (S m))) with (m :: rev (seq 0 m))
    by (by rewrite seq_S, rev_app_distr).
  rewrite for_each_cons. unfold gae_body, getitem.
  destruct (observations seg !! m) as [o|] eqn:Ho; [|done].
  destruct (next_observations seg !! m) as [o'|] eqn:Ho'; [|done].
  destruct (dones seg !! m) as [d|] eqn:Hd; [|done].
  apply lookup_lt_Some in Ho, Ho', Hd. lia.
Qed.

(** X8: with the done mask in use, the advantage of a terminal step is its
    reward minus the value prediction of its observation: neither the value
    of the next observation nor the advantages of later steps enter it. *)
Theorem terminal_step_advantage (uninit : nat -> R) (seg : segment Obs)
    (step : nat) (o : Obs) (r : R) :
  length (observations seg) = length (rewards seg) ->
  length (next_observations seg) = length (rewards seg) ->
  length (dones seg) = length (rewards seg) ->
  observations seg !! step = Some o ->
  rewards seg !! step = Some r ->
  dones seg !! step = Some true ->
  exists est,
    _add_vtarg_and_adv uninit pi seg gamma lam false = Ok est /\
    adv est !! step = Some (r - value pi o).
Proof.
  intros Hobs Hnext Hdones Ho Hr Hd.
  destruct (lookup_lt_is_Some_2 (next_observations seg) step) as [o' Ho'].
  { apply lookup_lt_Some in Ho. lia. }
  eexists. split; [by apply add_vtarg_and_adv_ref|]. simpl.
  rewrite (gae_ref_step pi gamma lam false _ _ _ _ _ _ _ _ _ Ho Ho' Hr Hd).
  f_equal. unfold td_error. simpl. lra.
Qed.

(** X9: with [lam = 0] the advantage of every step is its one-step
    temporal-difference error. *)
Theorem lambda_zero_gives_td_error (uninit : nat -> R) (ignore_dones : bool)
    (seg : segment Obs) :
  length (observations seg) = length (rewards seg) ->
  length (next_observations seg) = length (rewards seg) ->
  length (dones seg) = length (rewards seg) ->
  exists est,
    _add_vtarg_and_adv uninit pi seg gamma 0 ignore_dones = Ok est /\
    forall step o o' r d,
      observations seg !! step = Some o ->
      next_observations seg !! step = Some o' ->
      rewards seg !! step = Some r ->
      dones seg !! step = Some d ->
      adv est !! step
      = Some (r + gamma * (if ignore_dones then 1 else 1 - b2r d) * value pi o'
              - value pi o).
Proof.
  intros Hobs Hnext Hdones.
  eexists. split; [by apply add_vtarg_and_adv_ref|]. simpl.
  intros step o o' r d Ho Ho' Hr Hd.
  rewrite (gae_ref_step pi gamma 0 ignore_dones _ _ _ _ _ _ _ _ _ Ho Ho' Hr Hd).
  f_equal. unfold td_error. lra.
Qed.

End AdvantageMore.

Lemma estimates_independent_of_fresh_memory_witness :
  length (observations three_steps) = length (rewards three_steps) /\
  length (next_observations three_steps) = length (rewards three_steps) /\
  length (dones three_steps) = length (rewards three_steps) /\
  exists est,
    _add_vtarg_and_adv (fun _ => 7) tt three_steps (9 / 10) (1 / 2) false
    = Ok est /\
    _add_vtarg_and_adv (fun k => INR k) tt three_steps (9 / 10) (1 / 2) false
    = Ok est /\
    length (tdlamret est) = 3%nat.
Proof.
  split; [reflexivity|]. split; [reflexivity|]. split; [reflexivity|].
  destruct (estimates_independent_of_fresh_memory tt (9 / 10) (1 / 2) false
              three_steps eq_refl eq_refl eq_refl)
    as (est & Hrun & _ & _ & Hlen & _).
  exists est. split; [apply Hrun|]. split; [apply Hrun | exact Hlen].
Defined.

Lemma short_array_raises_index_error_witness :
  ((length (observations rewards_only) < length (rewards rewards_only))%nat \/
   (length (next_observations rewards_only) < length (rewards rewards_only))%nat \/
   (length (dones rewards_only) < length (rewards rewards_only))%nat) /\
  _add_vtarg_and_adv (fun _ => 7) tt rewards_only (9 / 10) (1 / 2) false
  = Raised IndexError.
Proof.
  assert (Hshort :
    (length (observations rewards_only) < length (rewards rewards_only))%nat \/
    (length (next_observations rewards_only) < length (rewards rewards_only))%nat \/
    (length (dones rewards_only) < length (rewards rewards_only))%nat).
  { left. simpl. lia. }
  split; [exact Hshort|].
  exact (short_array_raises_index_error tt (9 / 10) (1 / 2) (fun _ => 7) false
           rewards_only Hshort).
Defined.

Lemma terminal_step_advantage_witness :
  length (observations terminal_then_step) = length (rewards terminal_then_step) /\
  length (next_observations terminal_then_step)
  = length (rewards terminal_then_step) /\
  length (dones terminal_then_step) = length (rewards terminal_then_step) /\
  observations terminal_then_step !! 0%nat = Some 1%nat /\
  rewards terminal_then_step !! 0%nat = Some 1 /\
  dones terminal_then_step !! 0%nat = Some true /\
  exists est,
    _add_vtarg_and_adv (fun _ => 7) tt terminal_then_step (1 / 2) (1 / 2) false
    = Ok est /\
    adv est !! 0%nat = Some (1 - INR 1).
Proof.
  repeat (split; [reflexivity|]).
  exact (terminal_step_advantage tt (1 / 2) (1 / 2) (fun _ => 7)
           terminal_then_step 0 1%nat 1 eq_refl eq_refl eq_refl eq_refl eq_refl
           eq_refl).
Defined.

Lemma lambda_zero_gives_td_error_witness :
  length (observations three_steps) = length (rewards three_steps) /\
  length (next_observations three_steps) = length (rewards three_steps) /\
  length (dones three_steps) = length (rewards three_steps) /\
  exists est,
    _add_vtarg_and_adv (fun _ => 7) tt three_steps (9 / 10) 0 false = Ok est /\
    adv est !! 0%nat = Some (1 + 9 / 10 * (1 - b2r false) * INR 1 - INR 1).
Proof.
  split; [reflexivity|]. split; [reflexivity|]. split; [reflexivity|].
  destruct (lambda_zero_gives_td_error tt (9 / 10) (fun _ => 7) false three_steps
              eq_refl eq_refl eq_refl) as (est & Hrun & Hstep).
  exists est. split; [exact Hrun|].
  exact (Hstep 0%nat 1%nat 1%nat 1 false eq_refl eq_refl eq_refl eq_refl).
Defined.

(** ** Further properties of the logging step *)

Lemma length_deque_extend {A : Type} (maxlen : nat) (buf xs : list A) :
  (length (deque_extend maxlen buf xs) <= maxlen)%nat.
Proof. unfold deque_extend. rewrite length_drop. lia. Qed.

Lemma deque_extend_suffix {A : Type} (maxlen : nat) (buf xs : list A) :
  exists dropped, buf ++ xs = dropped ++ deque_extend maxlen buf xs.
Proof.
  exists (take (length (buf ++ xs) - maxlen) (buf ++ xs)).
  unfold deque_extend. by rewrite take_drop.
Qed.

Lemma deque_extend_fits {A : Type} (maxlen : nat) (buf xs : list A) :
  (length buf + length xs <= maxlen)%nat ->
  deque_extend maxlen buf xs = buf ++ xs.
Proof.
  intros Hfit. unfold deque_extend. rewrite length_app.
  replace (length buf + length xs - maxlen)%nat with 0%nat by lia.
  apply drop_0.
Qed.

Lemma dict_get_set_eq {V : Type} (k : string) (v : V) (d : list (string * V)) :
  dict_get k (dict_set k v d) = Some v.
Proof.
  induction d as [|[k' v'] d IH]; simpl.
  - by rewrite String.eqb_refl.
  - destruct (String.eqb k k') eqn:Hk; simpl; by rewrite Hk.
Qed.

Lemma dict_get_set_ne {V : Type} (k k' : string) (v : V) (d : list (string * V)) :
  k <> k' -> dict_get k' (dict_set k v d) = dict_get k' d.
Proof.
  intros Hne.
  assert (Hk' : String.eqb k' k = false).
  { apply String.eqb_neq. congruence. }
  induction d as [|[k1 v1] d IH]; simpl.
  - by rewrite Hk'.
  - destruct (String.eqb k k1) eqn:Hk; simpl.
    + apply String.eqb_eq in Hk. subst k1. by rewrite Hk'.
    + destruct (String.eqb k' k1); [done | apply IH].
Qed.

(** The assignments of the [zip] loop leave the other keys alone. *)
Lemma dict_get_assign_other (name : string) (l : list (string * R))
    (d : list (string * stat_value)) :
  name ∉ l.*1 ->
  dict_get name
    (foldl (fun d (p : string * R) => dict_set p.1 (SFloat p.2) d) d l)
  = dict_get name d.
Proof.
  revert d. induction l as [|[k v] l IH]; intros d Hname; [done|].
  rewrite fmap_cons in Hname. apply not_elem_of_cons in Hname as [Hk Hl].
  simpl. rewrite IH by done. apply dict_get_set_ne. simpl in Hk. congruence.
Qed.

Lemma stats_dict_statistic (st : stats) (name : string) :
  Forall (fun loss_name => loss_name ∉ statistic_names) (losses st).*1 ->
  name ∈ statistic_names ->
  dict_get name (stats_dict st) = dict_get name (stats_literal st).
Proof.
  intros Hnames Hname. unfold stats_dict. apply dict_get_assign_other.
  intros Hin. by apply (proj1 (Forall_forall _ _) Hnames name Hin).
Qed.

Lemma stats_dict_loss (st : stats) (before after : list (string * R))
    (name : string) (v : R) :
  losses st = before ++ (name, v) :: after ->
  name ∉ after.*1 ->
  dict_get name (stats_dict st) = Some (SFloat v).
Proof.
  intros Hlosses Hafter. unfold stats_dict.
  rewrite Hlosses, foldl_app. simpl.
  rewrite dict_get_assign_other by done. apply dict_get_set_eq.
Qed.

(** X10: when the clock has moved since the start, the logging step returns.
    It adds the episodes of the segment to the count of episodes, the steps
    of the segment to the count of steps and one to the count of iterations.
    The two rolling buffers never hold more than [40] entries and are the
    latest entries of what they held followed by the episodes of the segment,
    all of it while it fits.  The row, the dict after the [zip] loop, holds
    every loss under its name, with the value of the last pair of that name,
    also where the name is that of a statistic; when no loss is named like a
    statistic the row reports the new counts, the duration and the steps per
    second. *)
Theorem log_training_bookkeeping {Obs : Type}
    (explained_variance : list R -> list R -> npfloat) (self : algorithm)
    (t_start now1 now2 : R) (seg : segment Obs)
    (mean_losses vpredbefore tdlamret : list R) :
  now2 <> t_start ->
  exists self' st,
    _log_training explained_variance self t_start now1 now2 seg mean_losses
                  vpredbefore tdlamret
    = Ok (self', st) /\
    episodes_so_far self' = (episodes_so_far self + length (ep_lens seg))%nat /\
    timesteps_so_far self' = (timesteps_so_far self + total_timestep seg)%nat /\
    iters_so_far self' = (iters_so_far self + 1)%nat /\
    loss_names self' = loss_names self /\
    (length (len_buffer self') <= 40)%nat /\
    (length (reward_buffer self') <= 40)%nat /\
    (exists dropped,
       len_buffer self ++ ep_lens seg = dropped ++ len_buffer self') /\
    (exists dropped,
       reward_buffer self ++ ep_rets seg = dropped ++ reward_buffer self') /\
    ((length (len_buffer self) + length (ep_lens seg) <= 40)%nat ->
     len_buffer self' = len_buffer self ++ ep_lens seg) /\
    ((length (reward_buffer self) + length (ep_rets seg) <= 40)%nat ->
     reward_buffer self' = reward_buffer self ++ ep_rets seg) /\
    (forall before name v after,
       zip (loss_names self) mean_losses = before ++ (name, v) :: after ->
       name ∉ after.*1 ->
       dict_get name (stats_dict st) = Some (SFloat v)) /\
    (Forall (fun loss_name => loss_name ∉ statistic_names)
            (zip (loss_names self) mean_losses).*1 ->
     dict_get "episodes_this_itr" (stats_dict st)
     = Some (SInt (length (ep_lens seg))) /\
     dict_get "episodes_total" (stats_dict st)
     = Some (SInt (episodes_so_far self')) /\
     dict_get "total_steps" (stats_dict st)
     = Some (SInt (timesteps_so_far self')) /\
     dict_get "epoch" (stats_dict st) = Some (SInt (iters_so_far self')) /\
     dict_get "duration" (stats_dict st) = Some (SFloat (now1 - t_start)) /\
     dict_get "steps_per_second" (stats_dict st)
     = Some (SFloat (INR (timesteps_so_far self') / (now2 - t_start))) /\
     dict_get "mean_return_history" (stats_dict st)
     = Some (SNumpy (np_mean (reward_buffer self')))).
Proof.
  intros Hclock. unfold _log_training, py_div. simpl.
  destruct (Req_dec_T (now2 - t_start) 0) as [Hz|Hnz]; [lra|].
  simpl. eexists _, _. split; [reflexivity|].
  match goal with |- context [stats_dict ?s] => set (st := s) end.
  simpl.
  repeat (split; [done|]).
  split; [apply length_deque_extend|].
  split; [apply length_deque_extend|].
  split; [apply deque_extend_suffix|].
  split; [apply deque_extend_suffix|].
  split; [apply deque_extend_fits|].
  split; [apply deque_extend_fits|].
  split.
  - intros before name v after Hzip Hafter.
    by apply (stats_dict_loss st before after).
  - intros Hnames.
    repeat split;
      (rewrite stats_dict_statistic;
       [reflexivity | exact Hnames | unfold statistic_names; repeat constructor]).
Qed.

(** X12: the logging step raises [ZeroDivisionError] when the second reading
    of the clock equals the start time, and only then. *)
Theorem log_training_zero_division {Obs : Type}
    (explained_variance : list R -> list R -> npfloat) (self : algorithm)
    (t_start now1 now2 : R) (seg : segment Obs)
    (mean_losses vpredbefore tdlamret : list R) :
  _log_training explained_variance self t_start now1 now2 seg mean_losses
                vpredbefore tdlamret
  = Raised ZeroDivisionError
  <-> now2 = t_start.
Proof.
  unfold _log_training, py_div. simpl.
  destruct (Req_dec_T (now2 - t_start) 0) as [Hz|Hnz]; simpl.
  - split; [intros _; lra | done].
  - split; [done | intros ->; lra].
Qed.

Lemma foldl_Rmax_bounds (l : list R) (x : R) :
  x <= foldl Rmax x l /\ Forall (fun y => y <= foldl Rmax x l) l.
Proof.
  revert x. induction l as [|y l IH]; intros x; simpl.
  - split; [lra | constructor].
  - destruct (IH (Rmax x y)) as [Hx Hl].
    pose proof (Rmax_l x y). pose proof (Rmax_r x y).
    split; [lra|]. constructor; [lra | done].
Qed.

Lemma foldl_Rmin_bounds (l : list R) (x : R) :
  foldl Rmin x l <= x /\ Forall (fun y => foldl Rmin x l <= y) l.
Proof.
  revert x. induction l as [|y l IH]; intros x; simpl.
  - split; [lra | constructor].
  - destruct (IH (Rmin x y)) as [Hx Hl].
    pose proof (Rmin_l x y). pose proof (Rmin_r x y).
    split; [lra|]. constructor; [lra | done].
Qed.

Lemma foldl_Rmax_elem (l : list R) (x : R) : foldl Rmax x l ∈ x :: l.
Proof.
  revert x. induction l as [|y l IH]; intros x; simpl.
  - apply list_elem_of_here.
  - specialize (IH (Rmax x y)).
    apply elem_of_cons in IH as [Heq|Hin].
    + rewrite Heq. unfold Rmax. destruct (Rle_dec x y).
      * apply list_elem_of_further, list_elem_of_here.
      * apply list_elem_of_here.
    + by do 2 apply list_elem_of_further.
Qed.

Lemma foldl_Rmin_elem (l : list R) (x : R) : foldl Rmin x l ∈ x :: l.
Proof.
  revert x. induction l as [|y l IH]; intros x; simpl.
  - apply list_elem_of_here.
  - specialize (IH (Rmin x y)).
    apply elem_of_cons in IH as [Heq|Hin].
    + rewrite Heq. unfold Rmin. destruct (Rle_dec x y).
      * apply list_elem_of_here.
      * apply list_elem_of_further, list_elem_of_here.
    + by do 2 apply list_elem_of_further.
Qed.

(** X11: when the segment lists a completed episode, the mean of the returns
    is a number, their sum over their count, and the maximum and the minimum
    are returns of the segment that bound every return of the segment. *)
Theorem log_training_return_statistics {Obs : Type}
    (explained_variance : list R -> list R -> npfloat) (self : algorithm)
    (t_start now1 now2 : R) (seg : segment Obs)
    (mean_losses vpredbefore tdlamret : list R) :
  now2 <> t_start ->
  ep_rets seg <> [] ->
  exists self' st,
    _log_training explained_variance self t_start now1 now2 seg mean_losses
                  vpredbefore tdlamret
    = Ok (self', st) /\
    mean_return st
    = Finite (Rsum (ep_rets seg) / INR (length (ep_rets seg))) /\
    max_return st ∈ ep_rets seg /\
    min_return st ∈ ep_rets seg /\
    Forall (fun x => min_return st <= x <= max_return st) (ep_rets seg).
Proof.
  intros Hclock Hne. unfold _log_training, py_div. simpl.
  destruct (Req_dec_T (now2 - t_start) 0) as [Hz|Hnz]; [lra|].
  simpl. destruct (ep_rets seg) as [|x l] eqn:Hrets; [done|].
  eexists _, _. split; [reflexivity|]. simpl.
  split; [reflexivity|].
  split; [apply foldl_Rmax_elem|].
  split; [apply foldl_Rmin_elem|].
  destruct (foldl_Rmax_bounds l x) as [Hmx Hml].
  destruct (foldl_Rmin_bounds l x) as [Hnx Hnl].
  constructor; [lra|].
  apply Forall_forall. intros y Hy.
  pose proof (proj1 (Forall_forall _ _) Hml y Hy).
  pose proof (proj1 (Forall_forall _ _) Hnl y Hy). lra.
Qed.

Lemma log_training_bookkeeping_witness :
  1 <> 0 /\
  exists self' st,
    _log_training (fun _ _ => NaN) named_algorithm 0 1 1 terminal_then_step
      [1 / 2] [] []
    = Ok (self', st) /\
    episodes_so_far self' = 1%nat /\
    dict_get "total_steps" (stats_dict st) = Some (SInt 2) /\
    dict_get "vf_loss" (stats_dict st) = Some (SFloat (1 / 2)).
Proof.
  split; [lra|].
  destruct (log_training_bookkeeping (fun _ _ => NaN) named_algorithm 0 1 1
              terminal_then_step [1 / 2] [] [])
    as (self' & st & Hrun & Hep & Hts & _ & _ & _ & _ & _ & _ & _ & _ & Hloss
        & Hrow).
  - lra.
  - exists self', st. split; [exact Hrun|]. split; [exact Hep|]. split.
    + destruct Hrow as (_ & _ & Htotal & _).
      * constructor; [|constructor].
        intros Hin. apply list_elem_of_In in Hin. simpl in Hin.
        repeat (destruct Hin as [Hin|Hin]; [discriminate|]). exact Hin.
      * rewrite Htotal, Hts. reflexivity.
    + apply (Hloss [] "vf_loss" (1 / 2) []); [reflexivity|].
      apply not_elem_of_nil.
Defined.

Lemma log_training_return_statistics_witness :
  1 <> 0 /\ ep_rets terminal_then_step <> [] /\
  exists self' st,
    _log_training (fun _ _ => NaN) fresh_algorithm 0 1 1 terminal_then_step
      [] [] []
    = Ok (self', st) /\
    max_return st ∈ ep_rets terminal_then_step /\
    min_return st ∈ ep_rets terminal_then_step.
Proof.
  split; [lra|]. split; [discriminate|].
  destruct (log_training_return_statistics (fun _ _ => NaN) fresh_algorithm
              0 1 1 terminal_then_step [] [] [])
    as (self' & st & Hrun & _ & Hmax & Hmin & _).
  - lra.
  - discriminate.
  - exists self', st. split; [exact Hrun|]. split; [exact Hmax | exact Hmin].
Defined.

(** ** Properties of the training loop *)

Section LearnFacts.
Context {E P Obs A : Type}.
Context `{!Environment E Obs} `{!PolicyModel P Obs} `{!Trainer A P Obs}.
Variable clock : nat -> R.
Variable explained_variance : list R -> list R -> npfloat.
Variable uninit : nat -> R.

#[local] Abbreviation wstate := (world (E := E) (P := P) (A := A)).

Lemma timed_reading_keeps (w : wstate) :
  w_self (timed_reading w) = w_self w /\
  (ticks w <= ticks (timed_reading w))%nat /\
  train_csv (timed_reading w) = train_csv w.
Proof.
  unfold timed_reading. destruct (1 <=? verbose (w_self w))%Z; simpl;
    repeat split; lia.
Qed.

(** The sampler returns for a budget of any sign, with its arrays in step. *)
Lemma collect_samples_in_step (fuel : nat) (n : Z) (env : E) (pi : P) :
  (Z.to_nat n <= fuel)%nat -> actions_fit E P Obs ->
  exists st,
    _collect_samples fuel n env pi = Ok (segment_of st, l_env st, l_policy_pi st)
    /\ episodes_inv st /\ length (l_observations st) = Z.to_nat n.
Proof.
  intros Hfuel Hfit. destruct (Z.le_gt_cases 0 n) as [Hn|Hn].
  - destruct (collect_samples_rule episodes_inv fuel n env pi Hn Hfuel)
      as (st & Hrun & HI & Hlen).
    + intros st Hep. by apply episodes_inv_body.
    + apply episodes_inv_init.
    + exists st. split; [done|]. split; [done | lia].
  - unfold _collect_samples. destruct (reset env) as [env0 obs0].
    exists (mk_locals env0 pi obs0 [] [] [] [] [] 0 0 [] []).
    assert (Hloop : collect_loop fuel n
                      (mk_locals env0 pi obs0 [] [] [] [] [] 0 0 [] [])
                    = Ok (mk_locals env0 pi obs0 [] [] [] [] [] 0 0 [] [])).
    { assert (Htest : (Z.of_nat 0 <? n)%Z = false) by (apply Z.ltb_ge; lia).
      destruct fuel; simpl; simpl in Htest; by rewrite Htest. }
    rewrite Hloop. split; [done|]. split; [apply episodes_inv_init|].
    simpl. lia.
Qed.

Section Pass.
Hypothesis Htrain :
  forall a p seg est t, exists res, _train (A := A) a p seg est t = Ok res.
Hypothesis Hfit : actions_fit E P Obs.

(** One pass returns; it collects a batch, adds a row and moves the
    counters, and leaves the settings alone. *)
Lemma learn_pass_returns (sample_fuel : nat) (total_timesteps : Z) (t_start : R)
    (w : wstate) :
  (Z.to_nat (timesteps_per_batch (w_self w)) <= sample_fuel)%nat ->
  (forall k, (ticks w <= k)%nat -> clock k <> t_start) ->
  exists w',
    learn_pass clock explained_variance uninit sample_fuel total_timesteps
               t_start w
    = Ok (w', Z.to_nat (timesteps_per_batch (w_self w))) /\
    (ticks w <= ticks w')%nat /\
    timesteps_per_batch (w_self w') = timesteps_per_batch (w_self w) /\
    rl_gamma (w_self w') = rl_gamma (w_self w) /\
    rl_lam (w_self w') = rl_lam (w_self w) /\
    verbose (w_self w') = verbose (w_self w) /\
    iters_so_far (logged (w_self w'))
    = (iters_so_far (logged (w_self w)) + 1)%nat /\
    timesteps_so_far (logged (w_self w'))
    = (timesteps_so_far (logged (w_self w))
       + Z.to_nat (timesteps_per_batch (w_self w)))%nat /\
    length (train_csv w') = S (length (train_csv w)).
Proof.
  intros Hfuel Hclock. unfold learn_pass.
  destruct (timed_reading_keeps w) as (Hself1 & Hticks1 & Hcsv1).
  set (w1 := timed_reading w) in *.
  destruct (timed_reading_keeps w1) as (Hself2 & Hticks2 & Hcsv2).
  set (w2 := timed_reading w1) in *.
  rewrite Hself1.
  destruct (collect_samples_in_step sample_fuel
              (timesteps_per_batch (w_self w)) (env (w_self w))
              (policy_pi (w_self w)) Hfuel Hfit)
    as (st & Hrun & Hinv & Hlen).
  rewrite Hrun. simpl.
  destruct Hinv as (Hno & Hr & Hd & _).
  rewrite (add_vtarg_and_adv_ref uninit (l_policy_pi st) (rl_gamma (w_self w))
             (rl_lam (w_self w)) false (segment_of st))
    by (simpl; lia).
  simpl.
  match goal with
  | |- context [_train ?a ?p ?sg ?es ?t] =>
      destruct (Htrain a p sg es t) as [[[sub pi'] [[ml vb] tl]] Hres];
      rewrite Hres
  end.
  simpl. unfold _log_training, py_div. simpl.
  destruct (Req_dec_T (clock (S (ticks w2)) - t_start) 0) as [Hz|Hnz].
  { exfalso. apply (Hclock (S (ticks w2))); [lia | lra]. }
  simpl. eexists. split; [by rewrite Hlen|]. simpl.
  rewrite length_app, Hcsv2, Hcsv1. simpl.
  repeat split; try done; lia.
Qed.

(** The loop runs for as many passes as it takes the batches to reach the
    budget. *)
Lemma learn_loop_returns (sample_fuel : nat) (total_timesteps : Z) (t_start : R) :
  forall (fuel : nat) (w : wstate) (iters ts : Z),
    (1 <= timesteps_per_batch (w_self w))%Z ->
    (Z.to_nat (timesteps_per_batch (w_self w)) <= sample_fuel)%nat ->
    (forall k, (ticks w <= k)%nat -> clock k <> t_start) ->
    (total_timesteps - ts
     <= Z.of_nat fuel * timesteps_per_batch (w_self w))%Z ->
    exists w' (k : nat),
      learn_loop clock explained_variance uninit fuel sample_fuel
                 total_timesteps t_start w iters ts
      = Ok w' /\
      (total_timesteps
       <= ts + Z.of_nat k * timesteps_per_batch (w_self w))%Z /\
      ((0 < k)%nat ->
       (ts + (Z.of_nat k - 1) * timesteps_per_batch (w_self w)
        < total_timesteps)%Z) /\
      timesteps_per_batch (w_self w') = timesteps_per_batch (w_self w) /\
      iters_so_far (logged (w_self w'))
      = (iters_so_far (logged (w_self w)) + k)%nat /\
      timesteps_so_far (logged (w_self w'))
      = (timesteps_so_far (logged (w_self w))
         + k * Z.to_nat (timesteps_per_batch (w_self w)))%nat /\
      length (train_csv w') = (length (train_csv w) + k)%nat.
Proof.
  induction fuel as [|fuel IH]; intros w iters ts Htpb Hsf Hclock Hbudget.
  - exists w, 0%nat. simpl.
    destruct (Z.ltb_spec ts total_timesteps); [lia|].
    repeat split; try done; lia.
  - simpl. destruct (Z.ltb_spec ts total_timesteps) as [Hlt|Hge].
    + destruct (learn_pass_returns sample_fuel total_timesteps t_start w Hsf
                  Hclock)
        as (w1 & Hpass & Hticks & Htpb1 & _ & _ & _ & Hit & Hts & Hcsv).
      rewrite Hpass. simpl.
      destruct (IH w1 (iters + 1)%Z
                  (ts + Z.of_nat (Z.to_nat (timesteps_per_batch (w_self w))))%Z)
        as (w' & k & Hrun & Hreach & Hmin & Htpb' & Hit' & Hts' & Hcsv').
      * rewrite Htpb1. done.
      * rewrite Htpb1. done.
      * intros k Hk. apply Hclock. lia.
      * rewrite Htpb1, Z2Nat.id by lia. lia.
      * exists w', (S k). split; [exact Hrun|].
        rewrite Htpb1, Z2Nat.id in Hreach, Hmin by lia.
        rewrite Htpb1 in Htpb', Hts'.
        split; [lia|]. split.
        { intros _. destruct k as [|k]; [lia|].
          assert (H0 : (0 < S k)%nat) by lia. specialize (Hmin H0). lia. }
        split; [done|]. split; [lia|]. split; [lia|]. lia.
    + exists w, 0%nat. repeat split; try done; lia.
Qed.


End Pass.

(** X13: with batches of at least one step, a trainer that returns, actions
    that fit the action space, a clock that never reads the start time
    again and fuel for the passes, [learn] returns after [k] passes, where
    [k] is the least number of batches that reach the budget; it has then
    logged [k] more iterations and [k] batches of steps and written [k]
    rows. *)
Theorem learn_stops_at_budget (fuel sample_fuel : nat) (w : wstate)
    (total_timesteps : Z) :
  (1 <= timesteps_per_batch (w_self w))%Z ->
  (Z.to_nat (timesteps_per_batch (w_self w)) <= sample_fuel)%nat ->
  (total_timesteps <= Z.of_nat fuel * timesteps_per_batch (w_self w))%Z ->
  (forall a p seg est t, exists res, _train (A := A) a p seg est t = Ok res) ->
  actions_fit E P Obs ->
  (forall k, (ticks w < k)%nat -> clock k <> clock (ticks w)) ->
  exists w' (k : nat),
    learn clock explained_variance uninit fuel sample_fuel w total_timesteps
    = Ok w' /\
    (total_timesteps <= Z.of_nat k * timesteps_per_batch (w_self w))%Z /\
    ((0 < k)%nat ->
     ((Z.of_nat k - 1) * timesteps_per_batch (w_self w) < total_timesteps)%Z) /\
    iters_so_far (logged (w_self w'))
    = (iters_so_far (logged (w_self w)) + k)%nat /\
    timesteps_so_far (logged (w_self w'))
    = (timesteps_so_far (logged (w_self w))
       + k * Z.to_nat (timesteps_per_batch (w_self w)))%nat /\
    length (train_csv w') = (length (train_csv w) + k)%nat.
Proof.
  intros Htpb Hsf Hbudget Htrain Hfit Hclock. unfold learn.
  destruct (learn_loop_returns Htrain Hfit sample_fuel total_timesteps
              (clock (ticks w)) fuel
              (mk_world (w_self w) (S (ticks w)) (train_csv w)) 0 0)
    as (w' & k & Hrun & Hreach & Hmin & _ & Hit & Hts & Hcsv).
  - done.
  - done.
  - simpl. intros k Hk. apply Hclock. lia.
  - simpl. lia.
  - exists w', k. split; [exact Hrun|]. simpl in *.
    split; [lia|]. split; [intros Hk; specialize (Hmin Hk); lia|].
    done.
Qed.


End LearnFacts.

Lemma idle_trainer_returns :
  forall (a p : unit) (seg : segment nat) (est : estimates) (t : Z),
    exists res, _train a p seg est t = Ok res.
Proof. intros. by eexists. Qed.

Lemma clock_moves (t0 : nat) :
  forall k, (t0 < k)%nat -> INR k <> INR t0.
Proof. intros k Hk Heq. apply INR_eq in Heq. lia. Qed.

Lemma learn_stops_at_budget_witness :
  (1 <= timesteps_per_batch (w_self sample_world))%Z /\
  (Z.to_nat (timesteps_per_batch (w_self sample_world)) <= 4)%nat /\
  (10 <= Z.of_nat 3 * timesteps_per_batch (w_self sample_world))%Z /\
  (forall (a p : unit) (seg : segment nat) (est : estimates) (t : Z),
     exists res, _train a p seg est t = Ok res) /\
  actions_fit nat unit nat /\
  (forall k, (ticks sample_world < k)%nat -> INR k <> INR (ticks sample_world)) /\
  exists w',
    learn INR (fun _ _ => NaN) (fun _ => 0) 3 4 sample_world 10 = Ok w' /\
    iters_so_far (logged (w_self w')) = 3%nat /\
    timesteps_so_far (logged (w_self w')) = 12%nat /\
    length (train_csv w') = 3%nat.
Proof.
  split; [simpl; lia|]. split; [simpl; lia|]. split; [simpl; lia|].
  split; [exact idle_trainer_returns|]. split; [exact actions_fit_counting|].
  split; [exact (clock_moves 0)|].
  destruct (learn_stops_at_budget INR (fun _ _ => NaN) (fun _ => 0) 3 4
              sample_world 10)
    as (w' & k & Hrun & Hreach & Hmin & Hit & Hts & Hcsv).
  - simpl. lia.
  - simpl. lia.
  - simpl. lia.
  - exact idle_trainer_returns.
  - exact actions_fit_counting.
  - exact (clock_moves 0).
  - simpl in Hreach, Hmin, Hit, Hts, Hcsv.
    assert (Hk : k = 3%nat).
    { destruct k as [|k]; [lia|].
      assert (H0 : (0 < S k)%nat) by lia. specialize (Hmin H0). lia. }
    rewrite Hk in Hit, Hts, Hcsv. exists w'. split; [exact Hrun|].
    split; [exact Hit|]. split; [exact Hts | exact Hcsv].
Defined.


(** ** Further properties of the SAC graph *)


Section ActorFacts.
Variable self : FeedForwardPolicy.
Variable act_fun : R -> R.
Variable _layer :
  list string -> string -> nat -> option (R -> R) -> bool ->
  list (list R) -> list (list R).
Variable _remove_fingerprint : list (list R) -> nat -> nat -> nat -> list (list R).



(** X17: the log-probabilities the actor builds have the shape
    [[batch, 1]]: one row per row of the action tensor, one entry per row,
    whatever the networks, the observations and the noise. *)
Theorem actor_log_pi_shape (vs : list string) (obs : list (list R))
    (noise : list R) :
  length (make_actor self act_fun _layer _remove_fingerprint vs obs noise).2
  = length (make_actor self act_fun _layer _remove_fingerprint vs obs noise).1
  /\
  Forall (fun row => length row = 1%nat)
         (make_actor self act_fun _layer _remove_fingerprint vs obs noise).2.
Proof.
  unfold make_actor, tf_split2. cbv beta iota zeta.
  set (output := _layer _ "output" _ _ _ _). clearbody output.
  unfold fst, snd, _compute_log_pis, clip_by_value, expand_dims,
    reduce_sum_axis1, elementwise, elementwise2, broadcast_rows.
  split.
  - repeat rewrite ?length_fmap, ?length_zip_with. lia.
  - apply Forall_fmap. apply Forall_forall. intros x _. reflexivity.
Qed.

End ActorFacts.


Lemma tangent_sum_list (l : list dual) :
  Forall (fun x => tangent x = 0) l -> tangent (sum_list l) = 0.
Proof.
  induction 1 as [|x l Hx _ IH]; [done|].
  change (sum_list (x :: l)) with (tf_add x (sum_list l)).
  simpl. rewrite Hx, IH. lra.
Qed.

(** X15: [_clip_but_pass_gradient] gives the value clipped into
    [[lower, upper]] and the derivative of its input, also where the value is
    clipped. *)
Theorem clip_but_pass_gradient_value_and_derivative (x : dual) (lower upper : R) :
  lower <= upper ->
  val (_clip_but_pass_gradient x lower upper) = Rmax lower (Rmin (val x) upper) /\
  tangent (_clip_but_pass_gradient x lower upper) = tangent x.
Proof.
  intros Hle. unfold _clip_but_pass_gradient. simpl.
  split; [|lra].
  unfold Rmax, Rmin.
  destruct (Rlt_dec upper (val x)); destruct (Rlt_dec (val x) lower);
    destruct (Rle_dec (val x) upper); destruct (Rle_dec lower _); lra.
Qed.

Lemma clip_but_pass_gradient_value_and_derivative_witness :
  -1 <= 1 /\
  val (_clip_but_pass_gradient (mk_dual 3 5) (-1) 1) = Rmax (-1) (Rmin 3 1) /\
  tangent (_clip_but_pass_gradient (mk_dual 3 5) (-1) 1) = 5.
Proof.
  assert (Hle : -1 <= 1) by lra.
  split; [exact Hle|].
  exact (clip_but_pass_gradient_value_and_derivative (mk_dual 3 5) (-1) 1 Hle).
Defined.

Section GradientFacts.
Variable self : FeedForwardPolicy.
Variable act_fun : dual -> dual.
Variable _layer :
  list string -> string -> nat -> option (dual -> dual) -> bool ->
  list (list dual) -> list (list dual).
Variable _remove_fingerprint : list (list dual) -> nat -> nat -> nat -> list (list dual).
Variable fd : feed_dict.
Variables noise noise1 : list R.

(** X18: along a direction of the variables that leaves [log_alpha] alone,
    the temperature loss has derivative zero: it sends no gradient into the
    networks, whatever they are. *)
Theorem alpha_loss_no_gradient_to_networks (log_alpha : dual) :
  tangent log_alpha = 0 ->
  tangent (alpha_loss self act_fun _layer _remove_fingerprint log_alpha fd noise)
  = 0.
Proof.
  intros Hla. unfold alpha_loss, reduce_mean, elementwise.
  set (lp := log_pi _ _ _ _ _ _). clearbody lp.
  simpl.
  rewrite tangent_sum_list.
  - unfold Rdiv. lra.
  - apply Forall_concat. apply Forall_fmap. apply Forall_forall. intros row _.
    apply Forall_fmap. apply Forall_forall. intros x _.
    simpl. rewrite Hla. lra.
Qed.

(** X19: for a transition that ends an episode, [terminal = 1], the critic
    target is the reward alone: the target critics and the log-probability
    of the next action do not enter it. *)
Theorem terminal_transition_target_is_reward (log_alpha : dual) (i : nat) (r : R)
    (q1 q2 lp : dual) :
  rew_ph fd !! i = Some [r] ->
  terminals1 fd !! i = Some [1] ->
  critic_target self act_fun _layer _remove_fingerprint fd noise1 0 !! i
  = Some [q1] ->
  critic_target self act_fun _layer _remove_fingerprint fd noise1 1 !! i
  = Some [q2] ->
  next_log_pi self act_fun _layer _remove_fingerprint fd noise1 !! i
  = Some [lp] ->
  target_q self act_fun _layer _remove_fingerprint log_alpha fd noise1 !! i
  = Some [mk_dual r 0].
Proof.
  intros Hr Ht Hq1 Hq2 Hlp. unfold target_q, q_obs1.
  set (ct0 := critic_target _ _ _ _ _ _ 0) in *.
  set (ct1 := critic_target _ _ _ _ _ _ 1) in *.
  set (nlp := next_log_pi _ _ _ _ _ _) in *.
  clearbody ct0 ct1 nlp.
  unfold elementwise, elementwise2, placeholder.
  rewrite list_lookup_fmap, lookup_zip_with.
  rewrite list_lookup_fmap, Hr. simpl.
  rewrite lookup_zip_with, !list_lookup_fmap, Ht. simpl.
  rewrite lookup_zip_with, lookup_zip_with, Hq1. simpl.
  rewrite Hq2. simpl. rewrite list_lookup_fmap, Hlp. simpl.
  f_equal. f_equal. f_equal. lra.
Qed.

End GradientFacts.

Lemma alpha_loss_no_gradient_to_networks_witness :
  tangent (mk_dual 0 0) = 0 /\
  tangent (alpha_loss sample_policy (fun x : dual => x) sample_layer
             sample_remove_fingerprint (mk_dual 0 0) sample_feed [0])
  = 0.
Proof.
  split; [reflexivity|].
  exact (alpha_loss_no_gradient_to_networks sample_policy (fun x : dual => x)
           sample_layer sample_remove_fingerprint sample_feed [0] (mk_dual 0 0)
           eq_refl).
Defined.

(** The sample transition, ending an episode. *)
Lemma terminal_transition_target_is_reward_witness :
  exists q1 q2 lp : dual,
    rew_ph (mk_feed [[0]] [[1]] [[3]] [[0]] [[1]]) !! 0%nat = Some [3] /\
    terminals1 (mk_feed [[0]] [[1]] [[3]] [[0]] [[1]]) !! 0%nat = Some [1] /\
    critic_target sample_policy (fun x : dual => x) sample_layer
                  sample_remove_fingerprint
                  (mk_feed [[0]] [[1]] [[3]] [[0]] [[1]]) [0] 0 !! 0%nat
    = Some [q1] /\
    critic_target sample_policy (fun x : dual => x) sample_layer
                  sample_remove_fingerprint
                  (mk_feed [[0]] [[1]] [[3]] [[0]] [[1]]) [0] 1 !! 0%nat
    = Some [q2] /\
    next_log_pi sample_policy (fun x : dual => x) sample_layer
                sample_remove_fingerprint
                (mk_feed [[0]] [[1]] [[3]] [[0]] [[1]]) [0] !! 0%nat
    = Some [lp] /\
    target_q sample_policy (fun x : dual => x) sample_layer
             sample_remove_fingerprint (mk_dual 0 1)
             (mk_feed [[0]] [[1]] [[3]] [[0]] [[1]]) [0] !! 0%nat
    = Some [mk_dual 3 0].
Proof.
  eexists _, _, _.
  split; [reflexivity|]. split; [reflexivity|].
  split; [reflexivity|]. split; [reflexivity|]. split; [reflexivity|].
  apply (terminal_transition_target_is_reward sample_policy (fun x : dual => x)
           sample_layer sample_remove_fingerprint
           (mk_feed [[0]] [[1]] [[3]] [[0]] [[1]]) [0] (mk_dual 0 1)
           0%nat 3 _ _ _ eq_refl eq_refl eq_refl eq_refl eq_refl).
Defined.

(** ** Further properties of the update step *)

(** X20: [get_td_map] returns the empty dict exactly when the buffer cannot
    sample.  Otherwise every placeholder is fed [batch_size] rows, and the
    rows of the rewards and of the terminal flags hold one entry each. *)
Theorem get_td_map_shape {S : Type} (self : policy_object S) (draw : nat -> nat) :
  (get_td_map self draw = None <-> can_sample (replay_buffer self) = false) /\
  forall fd,
    get_td_map self draw = Some fd ->
    length (obs_ph fd) = batch_size (replay_buffer self) /\
    length (action_ph fd) = batch_size (replay_buffer self) /\
    length (rew_ph fd) = batch_size (replay_buffer self) /\
    length (obs1_ph fd) = batch_size (replay_buffer self) /\
    length (terminals1 fd) = batch_size (replay_buffer self) /\
    Forall (fun row => length row = 1%nat) (rew_ph fd) /\
    Forall (fun row => length row = 1%nat) (terminals1 fd).
Proof.
  unfold get_td_map.
  destruct (can_sample (replay_buffer self)) eqn:Hcan.
  - destruct (sample_full (replay_buffer self) draw Hcan)
      as (obs0 & actions & rewards & obs1 & extra & done1 & Hs & H0 & H1 & H2
          & H3 & H4).
    change (negb true) with false. cbv iota.
    rewrite Hs. unfold get_td_map_from_batch. split; [done|].
    intros fd Hfd. simplify_eq. simpl. unfold reshape_col.
    rewrite !length_fmap.
    repeat (split; [done|]).
    split; apply Forall_fmap, Forall_forall; done.
  - change (negb false) with true. cbv iota.
    split; [done|]. intros fd Hfd. done.
Qed.

Lemma get_td_map_shape_witness :
  exists fd,
    get_td_map
      (mk_object stocked_buffer ([] : list (list fetch * option feed_dict)))
      (fun k => k) = Some fd /\
    length (obs_ph fd) = 2%nat /\
    Forall (fun row => length row = 1%nat) (rew_ph fd).
Proof.
  eexists. split; [reflexivity|].
  destruct (get_td_map_shape
              (mk_object stocked_buffer
                 ([] : list (list fetch * option feed_dict)))
              (fun k => k)) as [_ Hshape].
  destruct (Hshape _ eq_refl) as (H0 & _ & _ & _ & _ & Hrow & _).
  split; [exact H0|exact Hrow].
Defined.

(** X21: [update] feeds the session the very dict [get_td_map] returns for
    the same random draw, in one call of [run] on the eight nodes of
    [step_ops], and makes no call when that dict is empty; whatever the
    session does, the replay buffer of the policy is left as it was, by
    [update] and by [initialize]. *)
Theorem update_runs_on_td_map {S : Type} `{!Session S}
    (self : policy_object S) (draw : nat -> nat) :
  update self draw
  = match get_td_map self draw with
    | None => Ok (Value 0, Value 0, self)
    | Some fd =>
        match
          run (sess self)
              [critic_loss_node; actor_loss_node; alpha_loss_node;
               critic_optimizer 0; critic_optimizer 1;
               actor_optimizer; alpha_optimizer; target_soft_updates]
              (Some fd)
        with
        | (sess', critic_loss :: actor_loss :: _) =>
            Ok (critic_loss, actor_loss, mk_object (replay_buffer self) sess')
        | _ => Raised ValueError
        end
    end /\
  (forall critic_loss actor_loss self',
     update self draw = Ok (critic_loss, actor_loss, self') ->
     replay_buffer self' = replay_buffer self) /\
  replay_buffer (initialize self) = replay_buffer self.
Proof.
  assert (Hupd :
    update self draw
    = match get_td_map self draw with
      | None => Ok (Value 0, Value 0, self)
      | Some fd =>
          match
            run (sess self)
                [critic_loss_node; actor_loss_node; alpha_loss_node;
                 critic_optimizer 0; critic_optimizer 1;
                 actor_optimizer; alpha_optimizer; target_soft_updates]
                (Some fd)
          with
          | (sess', critic_loss :: actor_loss :: _) =>
              Ok (critic_loss, actor_loss, mk_object (replay_buffer self) sess')
          | _ => Raised ValueError
          end
      end).
  { unfold update, get_td_map.
    destruct (can_sample (replay_buffer self)); simpl; [|done].
    destruct (sample (replay_buffer self) draw)
      as [[[[[obs0 actions] rewards] obs1] extra] done1].
    unfold update_from_batch, get_td_map_from_batch.
    destruct (run _ _ _) as [sess' results].
    destruct results as [|c [|a rest]]; done. }
  split; [exact Hupd|]. split.
  - intros c a self' Hrun. rewrite Hupd in Hrun.
    destruct (get_td_map self draw) as [fd|]; [|by simplify_eq].
    destruct (run _ _ _) as [sess' results].
    destruct results as [|c' [|a' rest]]; try done. by simplify_eq.
  - unfold initialize. by destruct (run _ _ _).
Qed.

Lemma update_runs_on_td_map_witness :
  exists critic_loss actor_loss self',
    update (mk_object stocked_buffer []) (fun k => k)
    = Ok (critic_loss, actor_loss, self') /\
    replay_buffer self' = stocked_buffer.
Proof.
  eexists _, _, _. split; [reflexivity|].
  destruct (update_runs_on_td_map (mk_object stocked_buffer []) (fun k => k))
    as (_ & Hkeep & _).
  exact (Hkeep _ _ _ eq_refl).
Defined.

(** ** The sampler and the estimator together *)

(** X22: the estimator never raises on a segment the sampler returned: the
    arrays of the segment go in step, and the estimates have one entry per
    collected step. *)
Theorem estimator_accepts_sampled_segment {E P Obs : Type}
    `{!Environment E Obs} `{!PolicyModel P Obs}
    (uninit : nat -> R) (fuel : nat) (n : Z) (env : E) (pi : P) (gamma lam : R)
    (ignore_dones : bool) :
  (Z.to_nat n <= fuel)%nat -> actions_fit E P Obs ->
  exists seg env' pi' est,
    _collect_samples fuel n env pi = Ok (seg, env', pi') /\
    _add_vtarg_and_adv uninit pi' seg gamma lam ignore_dones = Ok est /\
    length (adv est) = Z.to_nat n /\
    length (vpred est) = Z.to_nat n /\
    length (tdlamret est) = Z.to_nat n.
Proof.
  intros Hfuel Hfit.
  destruct (collect_samples_in_step fuel n env pi Hfuel Hfit)
    as (st & Hrun & (Hno & Hr & Hd & _) & Hlen).
  eexists _, _, _, _. split; [exact Hrun|].
  split.
  { apply add_vtarg_and_adv_ref; simpl; lia. }
  simpl.
  assert (HG : length (gae_ref (l_policy_pi st) gamma lam ignore_dones
                         (l_observations st) (l_next_observations st)
                         (l_rewards st) (l_dones st))
               = length (l_rewards st)) by (apply gae_ref_length; lia).
  rewrite length_zip_with, length_fmap, HG. lia.
Qed.

Lemma estimator_accepts_sampled_segment_witness :
  (Z.to_nat 4 <= 4)%nat /\ actions_fit nat unit nat /\
  exists seg env' pi' est,
    _collect_samples 4 4 0%nat tt = Ok (seg, env', pi') /\
    _add_vtarg_and_adv (fun _ => 7) pi' seg (99 / 100) (95 / 100) false = Ok est /\
    length (adv est) = 4%nat.
Proof.
  split; [simpl; lia|]. split; [exact actions_fit_counting|].
  destruct (estimator_accepts_sampled_segment (fun _ => 7) 4 4 0%nat tt
              (99 / 100) (95 / 100) false)
    as (seg & env' & pi' & est & Hrun & Hest & Hlen & _).
  - simpl. lia.
  - exact actions_fit_counting.
  - exists seg, env', pi', est. split; [exact Hrun|]. split; [exact Hest|].
    exact Hlen.
Defined.
